(** * Aafiya AI: the retrieval helper, the safety filters and the request
      handler, embedded from [nutrition_rag.py] and [app.py].

    Texts are [string]s, read as ASCII: [lower] folds the letters A-Z only,
    and the white space of [split] and [strip] is the ASCII part of Python's
    [str.isspace]; the bytes of other characters (the signs in the warning
    texts) are carried along unchanged.  Python integers are [Z] where they
    can be negative (window sizes, [top_k]) and [nat] where they count.  The
    numbers of the nutrition tables are exact rationals. *)

From Stdlib Require Import String Ascii List ZArith Lia Bool Arith.
From Stdlib Require Import QArith Qround Permutation Sorted.
Import ListNotations.

Local Close Scope Q_scope.
Local Open Scope nat_scope.
Local Open Scope string_scope.
Local Open Scope list_scope.

(* ================================================================== *)
(** ** Python's built-in text and sequence operations                  *)
(* ================================================================== *)

Module Py.

(** [c.isspace()] for an ASCII character: TAB..CR, FS..US and the blank. *)
Definition is_space (c : ascii) : bool :=
  let n := nat_of_ascii c in
  ((9 <=? n)%nat && (n <=? 13)%nat) || ((28 <=? n)%nat && (n <=? 32)%nat).

Definition lower_char (c : ascii) : ascii :=
  let n := nat_of_ascii c in
  if ((65 <=? n)%nat && (n <=? 90)%nat) then ascii_of_nat (n + 32) else c.

(** [s.lower()] *)
Fixpoint lower (s : string) : string :=
  match s with
  | EmptyString => EmptyString
  | String c r => String (lower_char c) (lower r)
  end.

(** [bool(s)]: a string is true when it is not empty. *)
Definition truthy (s : string) : bool :=
  match s with EmptyString => false | String _ _ => true end.

(** [hay.startswith(p)] *)
Fixpoint starts_with (p hay : string) : bool :=
  match p, hay with
  | EmptyString, _ => true
  | String _ _, EmptyString => false
  | String a p', String b h' => Ascii.eqb a b && starts_with p' h'
  end.

(** [needle in hay] *)
Fixpoint in_str (needle hay : string) : bool :=
  starts_with needle hay ||
  match hay with
  | EmptyString => false
  | String _ h' => in_str needle h'
  end.

(** [hay.count(needle)] for a non-empty needle: occurrences are counted from
    the left and do not overlap; [skip] characters of the last match are still
    to be passed over. *)
Fixpoint count_from (needle : string) (skip : nat) (hay : string) : nat :=
  match hay with
  | EmptyString => 0
  | String _ h' =>
      match skip with
      | S k => count_from needle k h'
      | O => if starts_with needle hay
             then S (count_from needle (String.length needle - 1) h')
             else count_from needle 0 h'
      end
  end.

(** [hay.count(needle)]; the empty needle occurs between all characters. *)
Definition count (needle hay : string) : nat :=
  match needle with
  | EmptyString => S (String.length hay)
  | String _ _ => count_from needle 0 hay
  end.

(** [s.split()]: the maximal runs of non-blank characters; [w] is the word
    being read. *)
Fixpoint split_aux (w : string) (s : string) : list string :=
  match s with
  | EmptyString => if truthy w then [w] else []
  | String c r =>
      if is_space c
      then (if truthy w then w :: split_aux EmptyString r
            else split_aux EmptyString r)
      else split_aux (w ++ String c EmptyString) r
  end.

Definition split (s : string) : list string := split_aux EmptyString s.

(** [s.split(sep)] for a one-character separator: never the empty list. *)
Fixpoint split_on (sep : ascii) (s : string) : list string :=
  match s with
  | EmptyString => [EmptyString]
  | String c r =>
      if Ascii.eqb c sep then EmptyString :: split_on sep r
      else match split_on sep r with
           | w :: ws => String c w :: ws
           | [] => [String c EmptyString]
           end
  end.

Fixpoint lstrip (s : string) : string :=
  match s with
  | EmptyString => EmptyString
  | String c r => if is_space c then lstrip r else s
  end.

Fixpoint rstrip (s : string) : string :=
  match s with
  | EmptyString => EmptyString
  | String c r =>
      match rstrip r with
      | EmptyString => if is_space c then EmptyString else String c EmptyString
      | String _ _ as t => String c t
      end
  end.

(** [s.strip()] *)
Definition strip (s : string) : string := rstrip (lstrip s).

(** [sep.join(l)] *)
Definition join (sep : string) (l : list string) : string :=
  String.concat sep l.

(** An index of a slice, brought into [0 .. n] the way Python does. *)
Definition clamp_index (n i : Z) : Z :=
  if (i <? 0)%Z then Z.max 0 (i + n) else Z.min i n.

(** [l[lo:hi]] *)
Definition slice {A : Type} (l : list A) (lo hi : Z) : list A :=
  let n := Z.of_nat (List.length l) in
  let lo' := clamp_index n lo in
  let hi' := clamp_index n hi in
  firstn (Z.to_nat (hi' - lo')) (skipn (Z.to_nat lo') l).

(** [range(0, n, step)]; [None] is the ValueError of a zero step. *)
Definition range0 (n step : Z) : option (list Z) :=
  if (step =? 0)%Z then None
  else
    let len :=
      if (0 <? step)%Z
      then (if (0 <? n)%Z then (n + step - 1) / step else 0)%Z
      else (if (n <? 0)%Z then (- n - step - 1) / (- step) else 0)%Z in
    Some (map (fun k => (Z.of_nat k * step)%Z) (seq 0 (Z.to_nat len))).

(** [any(p(x) for x in l)] *)
Definition any {A : Type} (p : A -> bool) (l : list A) : bool := existsb p l.

End Py.

(* ================================================================== *)
(** ** nutrition_rag.py                                                *)
(* ================================================================== *)

Module Rag.
Import Py.

(** [chunk_text(text, chunk_size=500, overlap=50)] *)
Definition chunk_text (text : string) (chunk_size overlap : Z)
  : option (list string) :=
  let words := split text in
  match range0 (Z.of_nat (List.length words)) (chunk_size - overlap) with
  | None => None
  | Some starts =>
      Some (fold_left
              (fun chunks i =>
                 let chunk := join " " (slice words i (i + chunk_size)) in
                 if truthy (strip chunk) then chunks ++ [strip chunk]
                 else chunks)
              starts [])
  end.

(** The dictionaries that [simple_keyword_search] returns. *)
Record Scored : Type := mkScored {
  sc_chunk : string;
  sc_score : nat;
  sc_index : nat
}.

(** The keyword part of the score: for each query word that occurs in the
    lower-cased chunk, the number of its occurrences. *)
Definition keyword_hits (query_words : list string) (chunk_lower : string)
  : nat :=
  fold_left
    (fun score word =>
       if in_str word chunk_lower then score + count word chunk_lower
       else score)
    query_words 0.

(** The score one iteration of the loop gives to [chunk]. *)
Definition chunk_score (query chunk : string) : nat :=
  let chunk_lower := lower chunk in
  let score := keyword_hits (split (lower query)) chunk_lower in
  if in_str (lower query) chunk_lower then score + 5 else score.

(** The loop over [enumerate(chunks)], from index [i] on. *)
Fixpoint score_chunks (query : string) (i : nat) (chunks : list string)
  : list Scored :=
  match chunks with
  | [] => []
  | chunk :: rest =>
      let score := chunk_score query chunk in
      if (0 <? score)%nat
      then mkScored chunk score i :: score_chunks query (S i) rest
      else score_chunks query (S i) rest
  end.

(** [l.sort(key=..., reverse=True)]: stable, largest key first. *)
Section Sort.
Context {A : Type} (key : A -> nat).

Fixpoint insert_desc (x : A) (l : list A) : list A :=
  match l with
  | [] => [x]
  | y :: r => if (key y <=? key x)%nat then x :: l else y :: insert_desc x r
  end.

Definition sort_desc (l : list A) : list A :=
  fold_right insert_desc [] l.
End Sort.

(** [simple_keyword_search(query, chunks, top_k=3)] *)
Definition simple_keyword_search (query : string) (chunks : list string)
  (top_k : Z) : list Scored :=
  let scored_chunks := score_chunks query 0 chunks in
  slice (sort_desc sc_score scored_chunks) 0 top_k.

Definition nl : string := String (ascii_of_nat 10) EmptyString.

(** The dictionary the uploader stores for a file. *)
Record Document : Type := mkDocument {
  doc_name : string;
  doc_content : string;
  doc_chunks : list string;
  doc_type : string;
  doc_size : nat
}.

(** An entry of [all_relevant_chunks]. *)
Record Relevant : Type := mkRelevant {
  rel_text : string;
  rel_document : string;
  rel_score : nat
}.

(** The loop of [build_context_from_documents] that fills
    [all_relevant_chunks]. *)
Fixpoint all_relevant_chunks (query : string) (documents : list Document)
  : list Relevant :=
  match documents with
  | [] => []
  | doc :: rest =>
      let chunks := doc_chunks doc in
      match chunks with
      | [] => all_relevant_chunks query rest
      | _ :: _ =>
          map (fun item =>
                 mkRelevant (sc_chunk item) (doc_name doc) (sc_score item))
              (simple_keyword_search query chunks 2)
            ++ all_relevant_chunks query rest
      end
  end.

(** [top_chunks]: the pool sorted by score, cut to three. *)
Definition top_chunks (query : string) (documents : list Document)
  : list Relevant :=
  slice (sort_desc rel_score (all_relevant_chunks query documents)) 0 3.

Definition context_part (chunk : Relevant) : string :=
  "From " ++ rel_document chunk ++ ":" ++ nl ++ rel_text chunk.

Definition context_banner : string :=
  nl ++ nl ++ "--- RELEVANT NUTRITION INFORMATION ---" ++ nl.

Definition context_footer : string :=
  nl ++ "--- END NUTRITION INFORMATION ---" ++ nl ++ nl.

(** [build_context_from_documents(query, documents)] *)
Definition build_context_from_documents (query : string)
  (documents : list Document) : string :=
  match documents with
  | [] => EmptyString
  | _ :: _ =>
      match all_relevant_chunks query documents with
      | [] => EmptyString
      | _ :: _ =>
          let context_parts := map context_part (top_chunks query documents) in
          context_banner ++ join (nl ++ nl) context_parts ++ context_footer
      end
  end.

(** [name.endswith(suffix)] *)
Definition ends_with (suffix s : string) : bool :=
  let n := String.length s in
  let k := String.length suffix in
  (k <=? n)%nat && String.eqb (String.substring (n - k) k s) suffix.

(** A file handed over by the upload widget. *)
Record UploadedFile : Type := mkUploadedFile {
  file_name : string;
  file_type : string;
  file_bytes : string
}.

Section Uploader.
(** The three readers depend on PyPDF2, pandas and the decoder; each returns
    the text it extracted, and the empty string after a reported error. *)
Variables process_pdf_file process_csv_file process_text_file
  : UploadedFile -> string.

(** The reader chosen by the file's type. *)
Definition extract_content (file : UploadedFile) : string :=
  if String.eqb (file_type file) "application/pdf"
  then process_pdf_file file
  else if String.eqb (file_type file) "text/csv"
          || ends_with ".csv" (file_name file)
  then process_csv_file file
  else process_text_file file.

(** One iteration of the loop "Process new files". *)
Definition process_new_file (nutrition_documents : list Document)
  (file : UploadedFile) : list Document :=
  if any (fun doc => String.eqb (doc_name doc) (file_name file))
         nutrition_documents
  then nutrition_documents
  else
    let content := extract_content file in
    if truthy content then
      match chunk_text content 500 50 with
      | Some chunks =>
          nutrition_documents
            ++ [mkDocument (file_name file) content chunks (file_type file)
                           (String.length content)]
      | None => nutrition_documents
      end
    else nutrition_documents.

(** [nutrition_document_uploader()] on one run of the page: the session
    entry [nutrition_documents] ([None] while the key is absent), the files
    the widget holds, and whether "Clear All Documents" was pressed.  The
    result is the session entry after the run; the function returns
    [st.session_state.get('nutrition_documents', [])]. *)
Definition nutrition_document_uploader (session : option (list Document))
  (uploaded_files : list UploadedFile) (clear_pressed : bool)
  : option (list Document) :=
  match uploaded_files with
  | [] => session
  | _ :: _ =>
      let docs := match session with Some d => d | None => [] end in
      let docs' := fold_left process_new_file uploaded_files docs in
      if clear_pressed then Some [] else Some docs'
  end.

Definition stored (session : option (list Document)) : list Document :=
  match session with Some d => d | None => [] end.

(** A session is a sequence of runs of the page. *)
Definition run_uploads (session : option (list Document))
  (runs : list (list UploadedFile * bool)) : option (list Document) :=
  fold_left (fun s r => nutrition_document_uploader s (fst r) (snd r))
            runs session.
End Uploader.

End Rag.

(* ================================================================== *)
(** ** app.py: the nutrition estimator and the two text filters        *)
(* ================================================================== *)

Module App.
Import Py Rag.

(** Numbers of the nutrition tables are exact rationals; [py_round] is
    Python's [round(x)] (ties to the even integer) and [round1] is
    [round(x, 1)] on the exact value.  Python rounds the binary float, which
    can fall on the other side of a decimal tie; the fields rounded with
    [round1] are carried along and no statement below depends on their
    value. *)
Definition py_round (q : Q) : Z :=
  let fl := Qfloor q in
  match Qcompare (q - inject_Z fl) (1 # 2) with
  | Lt => fl
  | Gt => (fl + 1)%Z
  | Eq => if Z.even fl then fl else (fl + 1)%Z
  end.

Definition round1 (q : Q) : Q := (inject_Z (py_round (q * 10)) / 10)%Q.

(** The dictionary returned by [get_edamam_nutrition] and
    [calculate_nutrition]; the keys [fiber], [sugar], [sodium] and [note] are
    present in some results only. *)
Record NutritionEstimate : Type := mkEstimate {
  ne_food : string;
  ne_quantity : string;
  ne_calories : Z;
  ne_protein : Q;
  ne_carbs : Q;
  ne_fat : Q;
  ne_fiber : option Q;
  ne_sugar : option Q;
  ne_sodium : option Q;
  ne_success : bool;
  ne_source : string;
  ne_note : option string
}.

Record Baseline : Type := mkBaseline {
  b_calories : Q;
  b_protein : Q;
  b_carbs : Q;
  b_fat : Q
}.

(** [food_db], in the order the dictionary literal is written. *)
Definition food_db : list (string * Baseline) := [
    ("egg", mkBaseline 70 6 0.5 5);
    ("toast", mkBaseline 80 3 15 1);
    ("apple", mkBaseline 95 0.5 25 0.3);
    ("banana", mkBaseline 105 1.3 27 0.4);
    ("chicken breast", mkBaseline 165 31 0 3.6);
    ("chicken", mkBaseline 165 31 0 3.6);
    ("rice", mkBaseline 130 2.7 28 0.3);
    ("salmon", mkBaseline 208 22 0 12);
    ("broccoli", mkBaseline 25 3 5 0.3);
    ("bread", mkBaseline 75 2.5 14 1);
    ("pasta", mkBaseline 220 8 44 1.5);
    ("pizza", mkBaseline 285 12 36 10);
    ("salad", mkBaseline 20 1.5 4 0.2);
    ("beef", mkBaseline 250 26 0 17);
    ("pork", mkBaseline 242 27 0 14);
    ("fish", mkBaseline 206 22 0 12);
    ("tuna", mkBaseline 154 25 0 5);
    ("turkey", mkBaseline 135 25 0 3.2);
    ("cheese", mkBaseline 113 7 1 9);
    ("milk", mkBaseline 42 3.4 5 1);
    ("yogurt", mkBaseline 59 10 3.6 0.4);
    ("oatmeal", mkBaseline 68 2.4 12 1.4);
    ("cereal", mkBaseline 379 8 84 1.5);
    ("orange", mkBaseline 47 0.9 12 0.1);
    ("grape", mkBaseline 69 0.6 16 0.4);
    ("carrot", mkBaseline 25 0.5 6 0.1);
    ("potato", mkBaseline 77 2 17 0.1);
    ("tomato", mkBaseline 18 0.9 3.9 0.2);
    ("lettuce", mkBaseline 5 0.5 1 0.1);
    ("spinach", mkBaseline 7 0.9 1.1 0.1);
    ("burger", mkBaseline 354 17 31 17);
    ("sandwich", mkBaseline 300 15 35 12);
    ("soup", mkBaseline 85 4 12 2.5);
    ("steak", mkBaseline 271 26 0 19);
    ("avocado", mkBaseline 234 2.9 12 21)
  ]%Q.

(** "Extract quantity" *)
Definition multiplier_of (food_lower quantity : string) : Q :=
  if in_str "2" quantity || in_str "two" food_lower then 2%Q
  else if in_str "3" quantity || in_str "three" food_lower then 3%Q
  else if in_str "half" food_lower || in_str "0.5" quantity then 0.5%Q
  else 1%Q.

(** "Adjust estimates based on food type" *)
Definition estimated_nutrition (food_lower : string) : Baseline :=
  let has := any (fun word => in_str word food_lower) in
  if has ["meat"; "chicken"; "beef"; "pork"; "fish"]
  then mkBaseline 200 25.0 2.0 8.0
  else if has ["fruit"; "apple"; "orange"; "berry"]
  then mkBaseline 80 1.0 20.0 0.5
  else if has ["vegetable"; "broccoli"; "carrot"; "spinach"]
  then mkBaseline 30 2.0 6.0 0.3
  else if has ["bread"; "pasta"; "rice"; "grain"]
  then mkBaseline 180 6.0 35.0 2.0
  else mkBaseline 150 8.0 20.0 5.0.

(** [calculate_nutrition(food_item, quantity)]; [edamam_result] is what
    [get_edamam_nutrition(food_item, quantity)] returned, [None] whenever the
    service gave no usable answer. *)
Definition calculate_nutrition (edamam_result : option NutritionEstimate)
  (food_item quantity : string) : NutritionEstimate :=
  match edamam_result with
  | Some r => r
  | None =>
      let food_lower := lower food_item in
      let multiplier := multiplier_of food_lower quantity in
      match find (fun entry => in_str (fst entry) food_lower) food_db with
      | Some (_, nutrition) =>
          mkEstimate food_item quantity
            (py_round (b_calories nutrition * multiplier))
            (round1 (b_protein nutrition * multiplier))
            (round1 (b_carbs nutrition * multiplier))
            (round1 (b_fat nutrition * multiplier))
            None None None true "Local Database" None
      | None =>
          let est := estimated_nutrition food_lower in
          mkEstimate food_item quantity
            (py_round (b_calories est * multiplier))
            (round1 (b_protein est * multiplier))
            (round1 (b_carbs est * multiplier))
            (round1 (b_fat est * multiplier))
            None None None false "Estimated"
            (Some "Estimated values based on food category")
      end
  end.

Definition unsafe_patterns : list string := [
  "extreme diet"; "crash diet"; "starvation"; "no food"; "skip meals";
  "fast for days"; "eat nothing"; "stop eating"; "starve yourself";
  "severe calorie restriction";
  "dangerous"; "harmful"; "toxic"; "poison"; "laxatives"; "diet pills";
  "weight loss pills"; "appetite suppressants"; "fat burners"; "detox tea";
  "cleanse pills";
  "eating disorder"; "anorexia"; "bulimia"; "binge eating"; "purging";
  "vomiting"; "pro ana"; "pro mia"; "thinspo"; "skinny goals";
  "self harm"; "hurt yourself"; "punish yourself";
  "exercise until exhaustion"; "workout punishment"; "food punishment";
  "guilt eating";
  "cure diabetes"; "cure cancer"; "magic weight loss"; "miracle diet";
  "lose 20 pounds in a week"; "instant results"; "no exercise needed";
  "sexual"; "explicit"; "violence"; "hate"; "discrimination"; "racist";
  "suicide"; "death"; "kill"; "murder"
].

(** [a > b] on scores. *)
Definition Qgtb (a b : Q) : bool := negb (Qle_bool a b).

(** One label with its confidence, as the two pipelines return them. *)
Record LabelScore : Type := mkLabelScore {
  ls_label : string;
  ls_score : Q
}.

(** The classifier back end; a call that raises returns [None]. *)
Record Classifiers : Type := mkClassifiers {
  toxicity_classifier : string -> option (list (list LabelScore));
  sentiment_analyzer : string -> option (list LabelScore)
}.

Definition body_terms : list string :=
  ["body"; "weight"; "fat"; "skinny"; "food"; "eat"; "diet"; "calories"].

(** The toxicity part of the [try] block: [None] when it raises, otherwise
    whether the marker is to be appended. *)
Definition toxicity_check (cl : Classifiers) (text : string) : option bool :=
  match toxicity_classifier cl text with
  | None => None
  | Some [] => Some false
  | Some ([] :: _) => Some false
  | Some ((first :: others) :: _) =>
      if String.eqb (ls_label first) "TOXIC"
      then Some (Qgtb (ls_score first) 0.7)
      else match others with
           | [] => None
           | second :: _ => Some (Qgtb (ls_score second) 0.7)
           end
  end.

(** The sentiment part of the [try] block, likewise. *)
Definition sentiment_check (cl : Classifiers) (text text_lower : string)
  : option bool :=
  match sentiment_analyzer cl text with
  | None => None
  | Some [] => None
  | Some (first :: _) =>
      if String.eqb (ls_label first) "NEGATIVE"
         && Qgtb (ls_score first) 0.9
      then Some (any (fun term => in_str term text_lower) body_terms)
      else Some false
  end.

(** [check_nutrition_safety(text)]; [backend] is [None] when
    [SENTIMENT_AVAILABLE] is false. *)
Definition check_nutrition_safety (backend : option Classifiers)
  (text : string) : bool * list string :=
  let text_lower := lower text in
  let flagged :=
    fold_left
      (fun flagged pattern =>
         if in_str pattern text_lower then flagged ++ [pattern] else flagged)
      unsafe_patterns [] in
  let flagged :=
    match backend with
    | Some cl =>
        if (10 <? String.length (strip text))%nat then
          match toxicity_check cl text with
          | None => flagged
          | Some toxic =>
              let flagged :=
                if toxic then flagged ++ ["AI-detected toxic content"]
                else flagged in
              match sentiment_check cl text text_lower with
              | None => flagged
              | Some negative =>
                  if negative
                  then flagged ++ ["AI-detected harmful body/food negativity"]
                  else flagged
              end
          end
        else flagged
    | None => flagged
    end in
  ((List.length flagged =? 0)%nat, flagged).

Definition allergy_warning_head : string :=
  "⚠️ **ALLERGY WARNING**: This recipe contains: ".
Definition unpreferred_note_head : string :=
  "ℹ️ **Note**: This recipe contains foods you prefer to avoid: ".
Definition consult_notice : string :=
  "🚨 **Please consult with a healthcare provider before consuming foods you're allergic to.**".

(** The loop "Check for allergens in recipe text", with the two variables it
    updates. *)
Definition check_allergens (recipe_lower : string)
  (user_allergies : list string) : list string * bool :=
  fold_left
    (fun st allergy =>
       if in_str allergy recipe_lower then (fst st ++ [allergy], false)
       else st)
    user_allergies ([], true).

(** The loop "Check for unpreferred foods". *)
Definition check_unpreferred (recipe_lower : string)
  (unpreferred_foods : list string) : list string :=
  fold_left
    (fun detected food =>
       if in_str food recipe_lower then detected ++ [food] else detected)
    unpreferred_foods [].

Definition parse_allergies (user_allergies_str : string) : list string :=
  if truthy user_allergies_str
  then map (fun allergy => lower (strip allergy))
           (split_on "," user_allergies_str)
  else [].

(** [filter_recipe_for_user_safety(recipe_text, user_allergies_str,
    unpreferred_foods_list)], returning [(is_safe, filtered_content,
    warnings)]. *)
Definition filter_recipe_for_user_safety
  (recipe_text user_allergies_str : string)
  (unpreferred_foods_list : list string) : bool * string * list string :=
  let user_allergies := parse_allergies user_allergies_str in
  let unpreferred_foods :=
    map (fun food => lower (strip food)) unpreferred_foods_list in
  let recipe_lower := lower recipe_text in
  let '(detected_allergens, is_safe) :=
    check_allergens recipe_lower user_allergies in
  let detected_unpreferred :=
    check_unpreferred recipe_lower unpreferred_foods in
  let warnings :=
    match detected_allergens with
    | [] => []
    | _ :: _ => [(allergy_warning_head ++ join ", " detected_allergens)%string]
    end in
  let warnings :=
    match detected_unpreferred with
    | [] => warnings
    | _ :: _ =>
        warnings
          ++ [(unpreferred_note_head ++ join ", " detected_unpreferred)%string]
    end in
  let filtered_content :=
    match warnings with
    | [] => recipe_text
    | _ :: _ =>
        let warning_text := (nl ++ nl ++ join nl warnings)%string in
        let warning_text :=
          if negb is_safe
          then (warning_text ++ nl ++ nl ++ consult_notice)%string
          else warning_text in
        (warning_text ++ nl ++ nl ++ recipe_text)%string
    end in
  (is_safe, filtered_content, warnings).

End App.

(* ================================================================== *)
(** ** app.py: the request handler                                     *)
(* ================================================================== *)

Module Request.
Import Py Rag App.

(** [s.replace(old, new)] for a non-empty [old]: occurrences are replaced
    from the left and do not overlap. *)
Fixpoint replace_from (old new : string) (skip : nat) (s : string) : string :=
  match s with
  | EmptyString => EmptyString
  | String c r =>
      match skip with
      | S k => replace_from old new k r
      | O => if starts_with old s
             then new ++ replace_from old new (String.length old - 1) r
             else String c (replace_from old new 0 r)
      end
  end.

Definition replace (old new s : string) : string := replace_from old new 0 s.

(** A call either returns a value or raises an exception. *)
Inductive outcome (A : Type) : Type :=
| Ok (a : A)
| Raise.
Arguments Ok {A} a.
Arguments Raise {A}.

(** The dictionary of [extract_nutrition_data]. *)
Record Extracted : Type := mkExtracted {
  ex_calories : Z;
  ex_protein : Q;
  ex_carbs : Q;
  ex_fat : Q;
  ex_source : string
}.

(** The value stored under ["nutrition_data"]: [None], the empty dictionary,
    or the extracted data. *)
Inductive NutritionField : Type :=
| NoData
| EmptyDict
| Dict (e : Extracted).

(** A record of the chat history. *)
Record ChatEntry : Type := mkChatEntry {
  ce_prompt : string;
  ce_response : string;
  ce_persona : string;
  ce_temperature : Q;
  ce_function_result : option NutritionEstimate;
  ce_nutrition_data : NutritionField;
  ce_timestamp : Q;
  ce_has_image : bool;
  ce_request_type : string
}.

Inductive MealNutrition : Type :=
| Calculated (r : NutritionEstimate)
| FromResponse (e : NutritionField).

Record MealEntry : Type := mkMealEntry {
  me_food : string;
  me_time : string;
  me_nutrition : MealNutrition;
  me_ai_advice : string
}.

Record UserProfile : Type := mkUserProfile {
  allergies : string;
  unpreferred_foods : list string
}.

(** The part of [st.session_state] the handler reads and writes. *)
Record Session : Type := mkSession {
  chat_history : list ChatEntry;
  nutrition_data : list NutritionEstimate;
  meal_log : list MealEntry;
  latest_ai_response : option string;
  clear_image : bool;
  user_profile : UserProfile
}.

Definition append_chat (e : ChatEntry) (s : Session) : Session :=
  mkSession (chat_history s ++ [e]) (nutrition_data s) (meal_log s)
            (latest_ai_response s) (clear_image s) (user_profile s).

Definition append_nutrition (r : NutritionEstimate) (s : Session) : Session :=
  mkSession (chat_history s) (nutrition_data s ++ [r]) (meal_log s)
            (latest_ai_response s) (clear_image s) (user_profile s).

Definition append_meal (m : MealEntry) (s : Session) : Session :=
  mkSession (chat_history s) (nutrition_data s) (meal_log s ++ [m])
            (latest_ai_response s) (clear_image s) (user_profile s).

Definition set_latest_ai_response (t : string) (s : Session) : Session :=
  mkSession (chat_history s) (nutrition_data s) (meal_log s)
            (Some t) (clear_image s) (user_profile s).

Definition set_clear_image (b : bool) (s : Session) : Session :=
  mkSession (chat_history s) (nutrition_data s) (meal_log s)
            (latest_ai_response s) b (user_profile s).

(** Statements run on the session; what was written before an exception
    stays written. *)
Definition M (A : Type) : Type := Session -> outcome A * Session.

Definition ret {A : Type} (a : A) : M A := fun s => (Ok a, s).

Definition bind {A B : Type} (m : M A) (k : A -> M B) : M B :=
  fun s =>
    match m s with
    | (Ok a, s') => k a s'
    | (Raise, s') => (Raise, s')
    end.

Definition raise {A : Type} : M A := fun s => (Raise, s).

Definition lift {A : Type} (o : outcome A) : M A := fun s => (o, s).

Definition gets {A : Type} (f : Session -> A) : M A := fun s => (Ok (f s), s).

Definition modify (f : Session -> Session) : M unit := fun s => (Ok tt, f s).

(** [try: body / except Exception: handler] *)
Definition try_except (body handler : M unit) : M unit :=
  fun s =>
    match body s with
    | (Ok _, s') => (Ok tt, s')
    | (Raise, s') => handler s'
    end.

Declare Scope request_scope.
Delimit Scope request_scope with request.
Notation "x <- m ;; k" := (bind m (fun x => k))
  (at level 61, m at next level, right associativity) : request_scope.
Notation "m ;;; k" := (bind m (fun _ => k))
  (at level 61, right associativity) : request_scope.
Local Open Scope request_scope.

(** One element of a streamed answer: it carries text, has no [text]
    attribute, or reading it raises. *)
Inductive StreamChunk : Type :=
| ChunkText (text : string)
| ChunkWithoutText
| ChunkRaises.

(** What [response.usage_metadata.total_token_count] does on the answer of
    the generation service: the answer has no such attribute, it gives the
    count, or reading it raises. *)
Inductive UsageMetadata : Type :=
| NoUsageMetadata
| TotalTokenCount (n : nat)
| UsageRaises.

(** What the services outside the program do during one request. *)
Record World : Type := mkWorld {
  backend : option Classifiers;
  get_edamam_nutrition : string -> string -> option NutritionEstimate;
  read_image : outcome string;
  generate_stream : outcome (list StreamChunk);
  generate_text : outcome (outcome string);
  usage_metadata : UsageMetadata;
  clock : Q;
  clock_text : string
}.

(** The arguments of [process_nutrition_request] that reach the session; the
    others ([persona_config], [max_tokens], the voice and avatar settings)
    only go to the generation service and to the page. *)
Record Args : Type := mkArgs {
  prompt_to_use : string;
  uploaded_image_data : bool;
  selected_persona : string;
  temperature : Q;
  enable_nutrition_calculator : bool;
  enable_streaming : bool;
  enable_meal_logging : bool;
  request_type : string
}.

(** [generate_nutrition_response]: everything is inside its own [try], and an
    exception is turned into [None]. *)
Definition generate_nutrition_response {R : Type} (call : outcome R)
  : option R :=
  match call with
  | Ok response => Some response
  | Raise => None
  end.

Definition nutrition_question_keywords : list string :=
  ["calorie"; "calories"; "nutrition"; "macro"; "protein"; "carb"; "fat";
   "ate"; "eating"; "food"].

Definition calculator_food_keywords : list string :=
  ["egg"; "toast"; "apple"; "banana"; "chicken"; "rice"; "salmon";
   "broccoli"; "bread"; "pasta"; "pizza"; "salad"; "beef"; "pork"; "fish";
   "tuna"; "turkey"; "cheese"; "milk"; "yogurt"; "oatmeal"; "cereal";
   "orange"; "grape"; "carrot"; "potato"; "tomato"; "lettuce"; "spinach";
   "burger"; "sandwich"; "soup"; "steak"; "avocado"].

Definition recipe_keywords : list string :=
  ["recipe"; "ingredients"; "meal plan"; "breakfast"; "lunch"; "dinner"].

Definition meal_keywords : list string :=
  ["ate"; "meal"; "breakfast"; "lunch"; "dinner"; "snack"; "food"; "eating";
   "consumed"; "had"; "calories"; "nutrition"; "protein"; "carbs"; "fat";
   "drink"; "beverage"; "recipe"; "ingredient"; "cooking"; "cooked";
   "prepared"; "portion"; "serving"].

Definition mentions (keywords : list string) (text : string) : bool :=
  any (fun keyword => in_str keyword (lower text)) keywords.

(** "Stage 3: Function Calling for Nutrition Calculator" *)
Definition function_calling (w : World) (a : Args)
  : option NutritionEstimate :=
  if enable_nutrition_calculator a then
    let is_image := String.eqb (request_type a) "image" in
    let should_calculate :=
      is_image || mentions nutrition_question_keywords (prompt_to_use a) in
    if should_calculate then
      let detected_foods :=
        filter (fun food => in_str food (lower (prompt_to_use a)))
               calculator_food_keywords in
      let detected_foods :=
        match detected_foods with
        | [] => if is_image then ["pasta dish with sauce"]
                else [String.substring 0 100 (strip (prompt_to_use a))]
        | _ :: _ => detected_foods
        end in
      match detected_foods with
      | [] => None
      | food_item :: _ =>
          let food_item :=
            strip (replace "nutrition info for" ""
                     (replace "calories in" ""
                        (replace "what are the nutrition facts for" ""
                                 food_item))) in
          Some (calculate_nutrition
                  (get_edamam_nutrition w food_item "1 serving")
                  food_item "1 serving")
      end
    else None
  else None.

(** [for chunk in response: if hasattr(chunk, 'text'): response_text +=
    chunk.text] *)
Fixpoint read_stream (chunks : list StreamChunk) (response_text : string)
  : outcome string :=
  match chunks with
  | [] => Ok response_text
  | ChunkText t :: rest => read_stream rest (response_text ++ t)
  | ChunkWithoutText :: rest => read_stream rest response_text
  | ChunkRaises :: _ => Raise
  end.

Definition flagged_response : string :=
  "Content flagged for safety and blocked".

Definition no_response_text : string :=
  "Sorry, I couldn't generate a response. Please try again.".

Definition apology_text : string :=
  "Sorry, there was an issue processing your request. Please try again.".

(** [t[:n] + "..." if len(t) > n else t] *)
Definition shorten (n : nat) (t : string) : string :=
  if (n <? String.length t)%nat then String.substring 0 n t ++ "..." else t.

Section Handler.
(** [extract_nutrition_data] searches the answer with regular expressions
    and always returns a full dictionary. *)
Variable extract_nutrition_data : string -> Extracted.

Variable w : World.
Variable a : Args.

(** The streaming branch of the [try] block. *)
Definition streaming_answer : M string :=
  match generate_nutrition_response (generate_stream w) with
  | Some response =>
      response_text <- lift (read_stream response "") ;;
      profile <- gets user_profile ;;
      (if mentions recipe_keywords response_text then
         let '(_, filtered_response, _) :=
           filter_recipe_for_user_safety response_text (allergies profile)
                                         (unpreferred_foods profile) in
         modify (set_latest_ai_response filtered_response)
       else modify (set_latest_ai_response response_text)) ;;;
      ret response_text
  | None => ret EmptyString
  end.

(** The other branch. *)
Definition plain_answer : M string :=
  match generate_nutrition_response (generate_text w) with
  | Some response =>
      response_text <- lift response ;;
      modify (set_latest_ai_response response_text) ;;;
      ret response_text
  | None => ret no_response_text
  end.

(** "Recipe filtering and saving for non-streaming responses": the call
    [filter_recipe_for_user_safety(response_text)] gives one of the three
    required arguments, so Python raises a TypeError when it is reached. *)
Definition recipe_filtering (response_text : string) : M unit :=
  if truthy response_text && mentions recipe_keywords response_text
  then raise
  else ret tt.

Definition chat_entry (response : string)
  (function_result : option NutritionEstimate)
  (extracted : NutritionField) : ChatEntry :=
  mkChatEntry (prompt_to_use a) response (selected_persona a)
              (temperature a) function_result extracted (clock w)
              (uploaded_image_data a) (request_type a).

(** "Add to meal log if relevant" *)
Definition meal_logging (function_result : option NutritionEstimate)
  (extracted_nutrition : NutritionField) (final_response : string)
  : M unit :=
  let has_food_keywords := mentions meal_keywords (prompt_to_use a) in
  let has_nutrition_data :=
    match function_result, extracted_nutrition with
    | Some _, _ => true
    | None, Dict _ => true
    | None, _ => false
    end in
  if enable_meal_logging a
     && (uploaded_image_data a || has_food_keywords || has_nutrition_data)
  then
    modify (append_meal
              (mkMealEntry
                 (shorten 100 (prompt_to_use a))
                 (clock_text w)
                 (match function_result with
                  | Some r => Calculated r
                  | None => FromResponse extracted_nutrition
                  end)
                 (shorten 200 final_response)))
  else ret tt.

(** Whether [response] holds an answer after the branch that was taken;
    [generate_nutrition_response] returns [None] when the call failed. *)
Definition has_response : bool :=
  if enable_streaming a then
    match generate_nutrition_response (generate_stream w) with
    | Some _ => true
    | None => false
    end
  else
    match generate_nutrition_response (generate_text w) with
    | Some _ => true
    | None => false
    end.

(** "Display token usage if available": [if 'response' in locals() and
    hasattr(response, 'usage_metadata')] reads the count of the answer;
    [hasattr(None, ...)] is false, and the other branch only counts the
    words of the two texts. *)
Definition token_usage : M unit :=
  if has_response then
    match usage_metadata w with
    | UsageRaises => raise
    | NoUsageMetadata | TotalTokenCount _ => ret tt
    end
  else ret tt.

(** The body of the [try] block. *)
Definition request_body (function_result : option NutritionEstimate)
  : M unit :=
  _image_data <- (if uploaded_image_data a then lift (read_image w)
                  else ret EmptyString) ;;
  response_text <- (if enable_streaming a then streaming_answer
                    else plain_answer) ;;
  recipe_filtering response_text ;;;
  (match function_result with
   | Some r => modify (append_nutrition r)
   | None => ret tt
   end) ;;;
  let extracted_nutrition :=
    if truthy response_text then Dict (extract_nutrition_data response_text)
    else EmptyDict in
  let final_response := response_text in
  modify (append_chat
            (chat_entry final_response function_result
                        extracted_nutrition)) ;;;
  meal_logging function_result extracted_nutrition final_response ;;;
  token_usage ;;;
  (if uploaded_image_data a && String.eqb (request_type a) "image"
   then modify (set_clear_image true)
   else ret tt).

(** [process_nutrition_request(...)].  The calls that only draw on the page
    ([st.info], [st.success], [st.metric], the avatar buttons) do not touch
    the session and are left out, and so is the text of the prompt, which
    only goes to the generation service. *)
Definition process_nutrition_request : M unit :=
  let '(is_safe, _flagged_terms) :=
    check_nutrition_safety (backend w) (prompt_to_use a) in
  if negb is_safe then
    modify (append_chat (chat_entry flagged_response None NoData))
  else
    let function_result := function_calling w a in
    try_except
      (request_body function_result)
      (modify (append_chat (chat_entry apology_text None NoData))).
End Handler.

End Request.

(* ================================================================== *)
(** ** The other helpers of nutrition_rag.py and app.py                *)
(* ================================================================== *)

Module Pages.
Import Py Rag App Request.

Definition rag_question_line : string :=
  "Based on the above nutrition information from the uploaded documents, please answer this question:".

Definition rag_instruction_line : string :=
  "If the uploaded documents contain relevant information, please reference it in your response. If the documents don't contain relevant information for this specific question, provide your general nutrition expertise.".

(** [enhance_prompt_with_rag(original_prompt, documents)] *)
Definition enhance_prompt_with_rag (original_prompt : string)
  (documents : list Document) : string :=
  match documents with
  | [] => original_prompt
  | _ :: _ =>
      let context := build_context_from_documents original_prompt documents in
      if truthy context then
        nl ++ context ++ nl ++ nl ++ rag_question_line ++ nl ++ nl
           ++ original_prompt ++ nl ++ nl ++ rag_instruction_line ++ nl
      else original_prompt
  end.

(** A colour tag of the craving page. *)
Record ColorTag : Type := mkTag {
  tag_color : string;
  tag_food : string;
  tag_benefit : string
}.

Definition sweet_tags : list ColorTag :=
  [mkTag "🟣" "Blueberries" "Antioxidants & natural sweetness";
     mkTag "🟠" "Sweet Potato" "Complex carbs & beta carotene";
     mkTag "🔴" "Strawberries" "Vitamin C & fiber"].

Definition salty_tags : list ColorTag :=
  [mkTag "🟠" "Roasted Carrots" "Beta carotene & fiber";
     mkTag "🟡" "Air-fried Squash" "Vitamins A & C";
     mkTag "🟢" "Kale Chips" "Iron & vitamin K"].

Definition energy_tags : list ColorTag :=
  [mkTag "🟫" "Almonds" "Healthy fats & protein";
     mkTag "🟢" "Spinach" "Iron & B vitamins";
     mkTag "🟡" "Bananas" "Potassium & natural energy"].

Definition inflammation_tags : list ColorTag :=
  [mkTag "🟠" "Turmeric" "Curcumin anti-inflammatory";
     mkTag "🟢" "Leafy Greens" "Antioxidants & omega-3s";
     mkTag "🔴" "Berries" "Anthocyanins & vitamin C"].

Definition default_tags : list ColorTag :=
  [mkTag "🟢" "Leafy Greens" "Vitamins & minerals";
     mkTag "🟠" "Orange Vegetables" "Beta carotene & fiber";
     mkTag "🔴" "Red Fruits" "Antioxidants & vitamin C";
     mkTag "🟣" "Purple Foods" "Anthocyanins & brain health"].

(** [get_color_nutrition_tags(craving_text)] *)
Definition get_color_nutrition_tags (craving_text : string) : list ColorTag :=
  let craving_lower := lower craving_text in
  let has := any (fun word => in_str word craving_lower) in
  let color_tags := [] in
  let color_tags :=
    if has ["sweet"; "sugar"; "dessert"; "candy"]
    then color_tags ++ sweet_tags else color_tags in
  let color_tags :=
    if has ["fries"; "chips"; "salty"; "crispy"]
    then color_tags ++ salty_tags else color_tags in
  let color_tags :=
    if has ["tired"; "energy"; "fatigue"]
    then color_tags ++ energy_tags else color_tags in
  let color_tags :=
    if has ["anti-inflammatory"; "inflammation"; "joint"]
    then color_tags ++ inflammation_tags else color_tags in
  let color_tags :=
    match color_tags with
    | [] => default_tags
    | _ :: _ => color_tags
    end in
  slice color_tags 0 4.

(** An entry of [user_recipe_list]. *)
Record RecipeEntry : Type := mkRecipeEntry {
  re_title : string;
  re_content : string;
  re_timestamp : string;
  re_allergies : string;
  re_unpreferred_foods : list string;
  re_nutrition : option NutritionEstimate
}.

(** [save_user_recipe_list(recipe_content, recipe_title, nutrition_data)] on
    the session entry [user_recipe_list] ([None] while the key is absent);
    [now] is the formatted time.  The result is the entry afterwards and the
    returned count. *)
Definition save_user_recipe_list (user_recipe_list : option (list RecipeEntry))
  (profile : UserProfile) (now : string)
  (recipe_content recipe_title : string)
  (nutrition_data : option NutritionEstimate)
  : list RecipeEntry * nat :=
  let recipes :=
    match user_recipe_list with
    | Some l => l
    | None => []
    end in
  let recipe_entry :=
    mkRecipeEntry recipe_title recipe_content now (allergies profile)
                  (unpreferred_foods profile) nutrition_data in
  let recipes := recipe_entry :: recipes in
  let recipes :=
    if (10 <? List.length recipes)%nat then slice recipes 0 10
    else recipes in
  (recipes, List.length recipes).

(** The profile form of [main] stores the selected allergies as one text:
    [', '.join(selected_allergies) if selected_allergies else '']. *)
Definition profile_allergies (selected_allergies : list string) : string :=
  match selected_allergies with
  | [] => EmptyString
  | _ :: _ => join ", " selected_allergies
  end.

(** The form stores the foods to avoid as a list:
    [[item.strip() for item in unpreferred_input.split(',') if item.strip()]]
    when the input is not blank, and the empty list otherwise. *)
Definition profile_unpreferred_foods (unpreferred_input : string)
  : list string :=
  if truthy (strip unpreferred_input) then
    map strip
        (filter (fun item => truthy (strip item))
                (split_on "," unpreferred_input))
  else [].

End Pages.

Import Py Rag App Request.
Import Pages.

(* ================================================================== *)
(** ** Notions used in the statements                                  *)
(* ================================================================== *)

(** A word of [split]: not empty and without white space. *)
Fixpoint no_space (s : string) : bool :=
  match s with
  | EmptyString => true
  | String c r => negb (is_space c) && no_space r
  end.

Definition is_word (s : string) : Prop := truthy s = true /\ no_space s = true.

Definition is_nil {A : Type} (l : list A) : bool :=
  match l with [] => true | _ :: _ => false end.

Definition names (docs : list Document) : list string := map doc_name docs.

(** The number of stored documents called [name]. *)
Definition stored_as (name : string) (docs : list Document) : nat :=
  List.length (filter (fun doc => String.eqb (doc_name doc) name) docs).

(** A statement that leaves the chat history as it is, also when it
    raises. *)
Definition keeps_history {A : Type} (m : M A) : Prop :=
  forall s, chat_history (snd (m s)) = chat_history s.

(** A statement that moreover returns. *)
Definition quiet {A : Type} (m : M A) : Prop :=
  forall s, exists x s',
    m s = (Ok x, s') /\ chat_history s' = chat_history s.

(** The order of the search results: the higher score first and, among equal
    scores, the chunk that comes first in the document. *)
Definition ranks_before (x y : Scored) : Prop :=
  sc_score y < sc_score x
  \/ (sc_score x = sc_score y /\ sc_index x < sc_index y).

(** The chunks of a list with their positions, as [enumerate] gives them. *)
Definition enumerate {A : Type} (l : list A) : list (nat * A) :=
  combine (seq 0 (List.length l)) l.

(** What the uploader stores for a file: the text that was read, not empty,
    its chunks at the default window, and its length. *)
Definition well_stored (doc : Document) : Prop :=
  truthy (doc_content doc) = true
  /\ chunk_text (doc_content doc) 500 50 = Some (doc_chunks doc)
  /\ doc_size doc = String.length (doc_content doc).

(** The bounds of the calories of a result that does not come from the
    service. *)
Definition calories_in_range (multiplier : Q) (nutrition : Baseline) : bool :=
  (2 <=? py_round (b_calories nutrition * multiplier))%Z
  && (py_round (b_calories nutrition * multiplier) <=? 1137)%Z.

(** The text carried by the chunks of a streamed answer. *)
Fixpoint stream_text (chunks : list StreamChunk) : string :=
  match chunks with
  | [] => EmptyString
  | ChunkText t :: rest => t ++ stream_text rest
  | _ :: rest => stream_text rest
  end.

(** What a request may do to the session: the profile stays, the three logs
    only grow at their ends, the meal log stays when meal logging is off, and
    the nutrition log stays when the calculator gave no result. *)
Definition steady (a : Args) (function_result : option NutritionEstimate)
  (s s' : Session) : Prop :=
  user_profile s' = user_profile s
  /\ (exists l, chat_history s' = chat_history s ++ l)
  /\ (exists l, nutrition_data s' = nutrition_data s ++ l)
  /\ (exists l, meal_log s' = meal_log s ++ l)
  /\ (enable_meal_logging a = false -> meal_log s' = meal_log s)
  /\ (function_result = None -> nutrition_data s' = nutrition_data s).

(** A statement whose effect on the session is [steady], also when it
    raises. *)
Definition stays_steady {A : Type} (a : Args)
  (function_result : option NutritionEstimate) (m : M A) : Prop :=
  forall s, steady a function_result s (snd (m s)).

(** A text without a comma. *)
Fixpoint no_comma (s : string) : bool :=
  match s with
  | EmptyString => true
  | String c r => negb (Ascii.eqb c ",") && no_comma r
  end.

(** Sample data for the worked examples. *)
Definition handbook (name : string) : Document :=
  mkDocument name "Protein helps. Fibre helps."
             ["Protein helps."; "Fibre helps."] "text/plain" 27.

Definition no_extraction (_ : string) : Extracted :=
  mkExtracted 200 10.0 25.0 8.0 "Extracted from AI response".

Definition text_question (prompt : string) (streaming : bool) : Args :=
  mkArgs prompt false "Dr. Sarah" 0.6 true streaming true "text".

Definition offline_world (streamed : outcome (list StreamChunk))
  (answered : outcome (outcome string)) : World :=
  mkWorld None (fun _ _ => None) (Ok EmptyString) streamed answered
          (TotalTokenCount 0) 0 "".


(** The text of the answer, as the branch that is taken reads it. *)
Definition answer_text (w : World) (a : Args) : outcome string :=
  if enable_streaming a then
    match generate_nutrition_response (generate_stream w) with
    | Some response => read_stream response EmptyString
    | None => Ok EmptyString
    end
  else
    match generate_nutrition_response (generate_text w) with
    | Some response => response
    | None => Ok no_response_text
    end.

(** The record the [try] block writes for an answer. *)
Definition answer_record (extract_nutrition_data : string -> Extracted)
  (w : World) (a : Args) (function_result : option NutritionEstimate)
  (e : ChatEntry) : Prop :=
  exists response,
    answer_text w a = Ok response
    /\ e = chat_entry w a response function_result
                      (if truthy response
                       then Dict (extract_nutrition_data response)
                       else EmptyDict).

(** A statement after the record was appended: it leaves the chat history
    as it is, and raises only when the token count of the answer cannot be
    read. *)
Definition late (w : World) {A : Type} (m : M A) : Prop :=
  forall s,
    chat_history (snd (m s)) = chat_history s
    /\ (fst (m s) = Raise -> usage_metadata w = UsageRaises).

(** The [try] block on a session: it raises before its record, or appends
    the record [e] and returns, or appends it and raises at the token
    count. *)
Definition records_at (w : World) (P : ChatEntry -> Prop) (m : M unit)
  (s : Session) : Prop :=
  (exists s', m s = (Raise, s') /\ chat_history s' = chat_history s)
  \/ (exists e s', m s = (Ok tt, s') /\ P e
                   /\ chat_history s' = chat_history s ++ [e])
  \/ (exists e s', m s = (Raise, s') /\ P e
                   /\ usage_metadata w = UsageRaises
                   /\ chat_history s' = chat_history s ++ [e]).

(** The groups of craving words of [get_color_nutrition_tags] with their
    tags, in the order of the code. *)
Definition craving_words : list (list string * list ColorTag) :=
  [(["sweet"; "sugar"; "dessert"; "candy"], sweet_tags);
   (["fries"; "chips"; "salty"; "crispy"], salty_tags);
   (["tired"; "energy"; "fatigue"], energy_tags);
   (["anti-inflammatory"; "inflammation"; "joint"], inflammation_tags)].

(** The tags of the groups one of whose words occurs in the craving. *)
Definition craving_groups (craving_text : string) : list (list ColorTag) :=
  map snd
      (filter (fun group =>
                 any (fun word => in_str word (lower craving_text))
                     (fst group))
              craving_words).

(** A statement that leaves the meal log as it is, also when it raises. *)
Definition keeps_meals {A : Type} (m : M A) : Prop :=
  forall s, meal_log (snd (m s)) = meal_log s.

(** A statement that leaves the meal log as it is or adds one entry that
    satisfies [P]. *)
Definition logs_at_most (P : MealEntry -> Prop) {A : Type} (m : M A)
  (s : Session) : Prop :=
  meal_log (snd (m s)) = meal_log s
  \/ exists e, P e /\ meal_log (snd (m s)) = meal_log s ++ [e].

Definition fresh_session : Session :=
  mkSession [] [] [] None false (mkUserProfile "" []).

(* ================================================================== *)
(** ** Facts about the text operations                                 *)
(* ================================================================== *)

Section TextFacts.

Lemma no_space_snoc (w : string) (c : ascii) :
  no_space w = true -> is_space c = false ->
  no_space (w ++ String c EmptyString) = true.
Proof.
  induction w as [|b w IH]; simpl; intros Hw Hc.
  - now rewrite Hc.
  - apply andb_true_iff in Hw as [Hb Hw]. rewrite Hb. simpl. auto.
Qed.

Lemma truthy_snoc (w : string) (c : ascii) :
  truthy (w ++ String c EmptyString) = true.
Proof. destruct w; reflexivity. Qed.

Lemma split_aux_words (s w : string) :
  no_space w = true -> Forall is_word (split_aux w s).
Proof.
  revert w. induction s as [|c r IH]; intros w Hw; simpl.
  - destruct (truthy w) eqn:E; constructor; [split; assumption | constructor].
  - destruct (is_space c) eqn:Hc.
    + destruct (truthy w) eqn:E.
      * constructor; [split; assumption | now apply IH].
      * now apply IH.
    + apply IH. now apply no_space_snoc.
Qed.

Lemma split_words (s : string) : Forall is_word (split s).
Proof. now apply split_aux_words. Qed.

Lemma lstrip_word_app (w t : string) :
  is_word w -> lstrip (w ++ t) = (w ++ t)%string.
Proof.
  intros [Ht Hs]. destruct w as [|c r]; [discriminate|].
  simpl in *. apply andb_true_iff in Hs as [Hc _].
  apply negb_true_iff in Hc. now rewrite Hc.
Qed.

Lemma rstrip_word (w : string) : is_word w -> rstrip w = w.
Proof.
  intros [Ht Hs]. induction w as [|c r IH]; [discriminate|].
  simpl in *. apply andb_true_iff in Hs as [Hc Hr].
  apply negb_true_iff in Hc.
  destruct r as [|d r'].
  - simpl. now rewrite Hc.
  - rewrite IH by (reflexivity || assumption). reflexivity.
Qed.

Lemma rstrip_app_stable (s t : string) :
  truthy t = true -> rstrip t = t -> rstrip (s ++ t) = (s ++ t)%string.
Proof.
  intros Ht Hr. induction s as [|c r IH]; simpl; [assumption|].
  rewrite IH. destruct (r ++ t)%string eqn:E; [|reflexivity].
  destruct r; simpl in E; [subst t; discriminate | discriminate].
Qed.

Lemma truthy_app_l (s t : string) : truthy s = true -> truthy (s ++ t) = true.
Proof. destruct s; [discriminate | reflexivity]. Qed.

Lemma join_words_shape (w : string) (ws : list string) :
  Forall is_word (w :: ws) ->
  truthy (join " " (w :: ws)) = true
  /\ lstrip (join " " (w :: ws)) = join " " (w :: ws)
  /\ rstrip (join " " (w :: ws)) = join " " (w :: ws).
Proof.
  revert w. induction ws as [|v ws IH]; intros w Hall.
  - inversion Hall as [|? ? Hw _]; subst. simpl.
    repeat split; [apply Hw | | now apply rstrip_word].
    destruct Hw as [Ht Hs]. destruct w as [|c r]; [discriminate|].
    simpl in *. apply andb_true_iff in Hs as [Hc _].
    apply negb_true_iff in Hc. now rewrite Hc.
  - inversion Hall as [|? ? Hw Hrest]; subst.
    destruct (IH v Hrest) as (Ht & _ & Hr).
    change (join " " (w :: v :: ws))
      with (w ++ String " " (join " " (v :: ws)))%string.
    generalize dependent (join " " (v :: ws)). intros j Ht Hr.
    repeat split.
    + apply truthy_app_l, Hw.
    + now apply lstrip_word_app.
    + rewrite rstrip_app_stable; [reflexivity | reflexivity |].
      simpl. rewrite Hr.
      destruct j; [discriminate | reflexivity].
Qed.

End TextFacts.

(* ================================================================== *)
(** ** The chunker                                                     *)
(* ================================================================== *)

Section Chunker.

Lemma range0_single (n step : Z) :
  (0 < n)%Z -> (n <= step)%Z -> range0 n step = Some [0%Z].
Proof.
  intros Hn Hs. unfold range0.
  destruct (Z.eqb_spec step 0) as [->|_]; [lia|].
  destruct (Z.ltb_spec 0 step) as [_|]; [|lia].
  destruct (Z.ltb_spec 0 n) as [_|]; [|lia].
  replace ((n + step - 1) / step)%Z with 1%Z; [reflexivity|].
  apply (Z.div_unique_pos (n + step - 1) step 1 (n - 1)); lia.
Qed.

Lemma slice_whole {A : Type} (l : list A) (hi : Z) :
  (Z.of_nat (List.length l) <= hi)%Z -> slice l 0 hi = l.
Proof.
  intros H. unfold slice, clamp_index. simpl.
  destruct (Z.ltb_spec hi 0) as [|_]; [lia|].
  rewrite Z.min_r by lia. rewrite Z.min_l by lia.
  rewrite Z.sub_0_r, Nat2Z.id. simpl. apply firstn_all.
Qed.

(** C2, as the code has it: a text whose positive word count is below
    [chunk_size] and does not exceed the stride [chunk_size - overlap] gives
    exactly one chunk, the words joined by single blanks. *)
Theorem chunk_text_single_window (text : string) (chunk_size overlap : Z) :
  (0 < List.length (split text))%nat ->
  (Z.of_nat (List.length (split text)) < chunk_size)%Z ->
  (overlap < chunk_size)%Z ->
  (Z.of_nat (List.length (split text)) <= chunk_size - overlap)%Z ->
  chunk_text text chunk_size overlap = Some [join " " (split text)].
Proof.
  intros Hpos Hlt _ Hstride. unfold chunk_text.
  rewrite range0_single by lia. simpl fold_left.
  rewrite slice_whole by lia.
  pose proof (split_words text) as Hw.
  destruct (split text) as [|w ws]; [simpl in Hpos; lia|].
  destruct (join_words_shape w ws Hw) as (Ht & Hl & Hr).
  unfold strip. rewrite Hl, Hr, Ht. reflexivity.
Qed.

Lemma chunk_text_single_window_witness :
  chunk_text "eat more greens" 5 1 = Some ["eat more greens"].
Proof.
  apply (chunk_text_single_window "eat more greens" 5 1).
  - vm_compute. lia.
  - vm_compute. reflexivity.
  - lia.
  - vm_compute. discriminate.
Defined.

(** C2 as the specification words it fails: three words, a window of five
    and an overlap of four give three chunks. *)
Lemma chunk_text_short_text_three_chunks :
  (0 < List.length (split "a b c"))%nat
  /\ (Z.of_nat (List.length (split "a b c")) < 5)%Z
  /\ (4 < 5)%Z
  /\ chunk_text "a b c" 5 4 = Some ["a b c"; "b c"; "c"]
  /\ chunk_text "a b c" 5 4 <> Some [join " " (split "a b c")].
Proof.
  repeat split; try (vm_compute; (lia || reflexivity || discriminate)).
Qed.

End Chunker.

(* ================================================================== *)
(** ** The keyword retriever                                           *)
(* ================================================================== *)

Section Retriever.

Lemma in_insert_desc {A : Type} (key : A -> nat) (x y : A) (l : list A) :
  In y (insert_desc key x l) <-> y = x \/ In y l.
Proof.
  induction l as [|z l IH]; simpl.
  - intuition.
  - destruct (key z <=? key x)%nat; simpl; [intuition | rewrite IH; intuition].
Qed.

Lemma in_sort_desc {A : Type} (key : A -> nat) (y : A) (l : list A) :
  In y (sort_desc key l) <-> In y l.
Proof.
  induction l as [|x l IH]; simpl; [tauto|].
  rewrite in_insert_desc, IH. intuition.
Qed.

Lemma length_insert_desc {A : Type} (key : A -> nat) (x : A) (l : list A) :
  List.length (insert_desc key x l) = S (List.length l).
Proof.
  induction l as [|z l IH]; simpl; [reflexivity|].
  destruct (key z <=? key x)%nat; simpl; [reflexivity | now rewrite IH].
Qed.

Lemma length_sort_desc {A : Type} (key : A -> nat) (l : list A) :
  List.length (sort_desc key l) = List.length l.
Proof.
  induction l as [|x l IH]; simpl; [reflexivity|].
  now rewrite length_insert_desc, IH.
Qed.

Lemma in_slice {A : Type} (l : list A) (lo hi : Z) (x : A) :
  In x (slice l lo hi) -> In x l.
Proof.
  unfold slice. intros H.
  set (n := Z.to_nat (clamp_index (Z.of_nat (List.length l)) lo)) in *.
  set (m := Z.to_nat _) in H.
  rewrite <- (firstn_skipn n l). apply in_or_app. right.
  rewrite <- (firstn_skipn m (skipn n l)). apply in_or_app. now left.
Qed.

Lemma firstn_le_length_bound {A : Type} (l : list A) (n k : nat) :
  n <= k -> List.length (firstn n l) <= k.
Proof. intros H. rewrite length_firstn. lia. Qed.

Lemma length_slice_prefix {A : Type} (l : list A) (k : nat) :
  List.length (slice l 0 (Z.of_nat k)) <= k.
Proof.
  unfold slice. apply firstn_le_length_bound.
  unfold clamp_index. change (0 <? 0)%Z with false. cbv iota.
  destruct (Z.ltb_spec (Z.of_nat k) 0) as [|_]; lia.
Qed.

(** Every candidate is a chunk of the list with its own positive score. *)
Lemma score_chunks_sound (query : string) (chunks : list string) (k : nat)
  (r : Scored) :
  In r (score_chunks query k chunks) ->
  k <= sc_index r
  /\ nth_error chunks (sc_index r - k) = Some (sc_chunk r)
  /\ sc_score r = chunk_score query (sc_chunk r)
  /\ 0 < sc_score r.
Proof.
  revert k. induction chunks as [|c rest IH]; intros k Hin; simpl in Hin.
  - contradiction.
  - assert (Hrest : In r (score_chunks query (S k) rest) ->
                    k <= sc_index r
                    /\ nth_error (c :: rest) (sc_index r - k)
                       = Some (sc_chunk r)
                    /\ sc_score r = chunk_score query (sc_chunk r)
                    /\ 0 < sc_score r).
    { intros H. destruct (IH _ H) as (Hk & Hn & Hs & Hp).
      repeat split; try assumption; [lia|].
      replace (sc_index r - k) with (S (sc_index r - S k)) by lia.
      exact Hn. }
    destruct (Nat.ltb_spec 0 (chunk_score query c)) as [Hpos|_].
    + destruct Hin as [<-|Hin]; [|auto].
      simpl. rewrite Nat.sub_diag. repeat split; auto.
    + auto.
Qed.

(** Every chunk with a positive score is a candidate. *)
Lemma score_chunks_complete (query : string) (chunks : list string)
  (k i : nat) (chunk : string) :
  nth_error chunks i = Some chunk ->
  0 < chunk_score query chunk ->
  In (mkScored chunk (chunk_score query chunk) (k + i))
     (score_chunks query k chunks).
Proof.
  revert k i. induction chunks as [|c rest IH]; intros k i Hn Hpos.
  - destruct i; discriminate.
  - destruct i as [|i]; simpl in Hn.
    + injection Hn as ->. simpl.
      destruct (Nat.ltb_spec 0 (chunk_score query chunk)); [|lia].
      left. now rewrite Nat.add_0_r.
    + simpl. replace (k + S i) with (S k + i) by lia.
      destruct (0 <? chunk_score query c)%nat; [right|]; now apply IH.
Qed.

(** Whatever [top_k] is, a returned entry is a chunk of the list, at its
    index, with its own positive score. *)
Lemma simple_keyword_search_sound (query : string) (chunks : list string)
  (top_k : Z) (r : Scored) :
  In r (simple_keyword_search query chunks top_k) ->
  nth_error chunks (sc_index r) = Some (sc_chunk r)
  /\ sc_score r = chunk_score query (sc_chunk r)
  /\ 0 < sc_score r.
Proof.
  intros Hr. unfold simple_keyword_search in Hr.
  apply in_slice, in_sort_desc, score_chunks_sound in Hr.
  destruct Hr as (_ & Hn & Hs & Hp). rewrite Nat.sub_0_r in Hn. auto.
Qed.



End Retriever.

(* ================================================================== *)
(** ** The context builder                                             *)
(* ================================================================== *)

Section ContextBuilder.

Lemma simple_keyword_search_no_match (query : string) (chunks : list string)
  (top_k : Z) :
  (forall chunk, In chunk chunks -> chunk_score query chunk = 0) ->
  simple_keyword_search query chunks top_k = [].
Proof.
  intros Hzero.
  destruct (simple_keyword_search query chunks top_k) as [|r rest] eqn:E;
    [reflexivity|].
  assert (Hr : In r (simple_keyword_search query chunks top_k))
    by (rewrite E; now left).
  apply simple_keyword_search_sound in Hr as (Hn & Hs & Hp).
  apply nth_error_In in Hn. rewrite (Hzero _ Hn) in Hs. lia.
Qed.

Lemma all_relevant_chunks_no_match (query : string)
  (documents : list Document) :
  (forall doc chunk,
      In doc documents -> In chunk (doc_chunks doc) ->
      chunk_score query chunk = 0) ->
  all_relevant_chunks query documents = [].
Proof.
  induction documents as [|doc rest IH]; intros Hzero; simpl; [reflexivity|].
  rewrite IH by (intros d c Hd; apply Hzero; now right).
  destruct (doc_chunks doc) as [|c cs] eqn:E; [reflexivity|].
  rewrite simple_keyword_search_no_match; [reflexivity|].
  intros chunk Hc. apply (Hzero doc); [now left | now rewrite E].
Qed.

Lemma context_banner_truthy (body : string) :
  (context_banner ++ body)%string <> EmptyString.
Proof. discriminate. Qed.

(** C6: no documents give the empty string; so do documents none of whose
    chunks has a positive score; and a context that is not empty is the
    banner, at most three entries and the footer. *)
Theorem build_context_empty_or_at_most_three (query : string)
  (documents : list Document) :
  build_context_from_documents query [] = EmptyString
  /\ ((forall doc chunk,
          In doc documents -> In chunk (doc_chunks doc) ->
          chunk_score query chunk = 0) ->
      build_context_from_documents query documents = EmptyString)
  /\ (build_context_from_documents query documents <> EmptyString ->
      List.length (top_chunks query documents) <= 3
      /\ build_context_from_documents query documents
         = (context_banner
              ++ join (nl ++ nl) (map context_part (top_chunks query documents))
              ++ context_footer)%string).
Proof.
  split; [reflexivity|]. split.
  - intros Hzero. unfold build_context_from_documents.
    rewrite all_relevant_chunks_no_match by assumption.
    now destruct documents.
  - intros Hne. split.
    + apply (length_slice_prefix _ 3).
    + unfold build_context_from_documents in *.
      destruct documents as [|d ds]; [contradiction|].
      destruct (all_relevant_chunks query (d :: ds)); [contradiction|].
      reflexivity.
Qed.

Lemma build_context_empty_or_at_most_three_witness :
  List.length (all_relevant_chunks "protein"
                 [handbook "a"; handbook "b"; handbook "c"; handbook "d"]) = 4
  /\ List.length (top_chunks "protein"
                    [handbook "a"; handbook "b"; handbook "c"; handbook "d"])
     <= 3
  /\ build_context_from_documents "vitamin" [handbook "a"] = EmptyString.
Proof.
  split; [reflexivity|].
  destruct (build_context_empty_or_at_most_three "protein"
              [handbook "a"; handbook "b"; handbook "c"; handbook "d"])
    as (_ & _ & Hfull).
  destruct (build_context_empty_or_at_most_three "vitamin" [handbook "a"])
    as (_ & Hnone & _).
  split.
  - apply Hfull. discriminate.
  - apply Hnone. intros doc chunk [<-|[]] Hc.
    simpl in Hc. destruct Hc as [<-|[<-|[]]]; reflexivity.
Defined.

End ContextBuilder.

(* ================================================================== *)
(** ** The document uploader                                           *)
(* ================================================================== *)

Lemma NoDup_snoc {A : Type} (l : list A) (x : A) :
  NoDup l -> ~ In x l -> NoDup (l ++ [x]).
Proof.
  induction l as [|y l IH]; simpl; intros Hnd Hx.
  - constructor; [tauto | constructor].
  - inversion Hnd as [|? ? Hy Hl]; subst. constructor.
    + rewrite in_app_iff. simpl. intros [H|[H|[]]]; [tauto|].
      apply Hx. now left.
    + apply IH; [assumption | tauto].
Qed.

Section UploaderFacts.
Variables pdf csv txt : UploadedFile -> string.

Lemma any_name_spec (docs : list Document) (name : string) :
  any (fun doc => String.eqb (doc_name doc) name) docs = true
  <-> In name (names docs).
Proof.
  unfold any, names. rewrite existsb_exists, in_map_iff. split.
  - intros (d & Hd & He). apply String.eqb_eq in He. eauto.
  - intros (d & He & Hd). exists d. split; [assumption|].
    now apply String.eqb_eq.
Qed.

Lemma process_known_name (docs : list Document) (file : UploadedFile) :
  In (file_name file) (names docs) ->
  process_new_file pdf csv txt docs file = docs.
Proof.
  intros H. apply any_name_spec in H. unfold process_new_file.
  now rewrite H.
Qed.

(** A step leaves the list alone or appends one document under a name that
    was not stored. *)
Lemma process_new_file_cases (docs : list Document) (file : UploadedFile) :
  process_new_file pdf csv txt docs file = docs
  \/ (~ In (file_name file) (names docs)
      /\ exists doc, doc_name doc = file_name file
                     /\ process_new_file pdf csv txt docs file = docs ++ [doc]).
Proof.
  unfold process_new_file.
  destruct (any _ docs) eqn:Hany; [now left|].
  destruct (truthy _); [|now left].
  destruct (chunk_text _ 500 50) as [chunks|]; [|now left].
  right. split.
  - intros Hin. apply any_name_spec in Hin. congruence.
  - eexists. split; [|reflexivity]. reflexivity.
Qed.

Lemma process_new_file_stores (docs : list Document) (file : UploadedFile) :
  truthy (extract_content pdf csv txt file) = true ->
  In (file_name file) (names (process_new_file pdf csv txt docs file)).
Proof.
  intros Hc. unfold process_new_file.
  destruct (any _ docs) eqn:Hany; [now apply any_name_spec|].
  rewrite Hc. unfold chunk_text. change (500 - 50)%Z with 450%Z.
  unfold range0. change (450 =? 0)%Z with false. cbv iota.
  unfold names. rewrite map_app. apply in_or_app. right. now left.
Qed.

Lemma process_new_file_nodup (docs : list Document) (file : UploadedFile) :
  NoDup (names docs) -> NoDup (names (process_new_file pdf csv txt docs file)).
Proof.
  intros Hnd.
  destruct (process_new_file_cases docs file)
    as [->|(Hnew & doc & Hname & ->)]; [assumption|].
  unfold names. rewrite map_app. simpl. rewrite Hname.
  now apply NoDup_snoc.
Qed.

Lemma fold_process_nodup (files : list UploadedFile) (docs : list Document) :
  NoDup (names docs) ->
  NoDup (names (fold_left (process_new_file pdf csv txt) files docs)).
Proof.
  revert docs. induction files as [|f fs IH]; intros docs Hnd; simpl;
    [assumption|].
  apply IH. now apply process_new_file_nodup.
Qed.

Lemma uploader_nodup (session : option (list Document))
  (files : list UploadedFile) (clear : bool) :
  NoDup (names (stored session)) ->
  NoDup (names (stored (nutrition_document_uploader pdf csv txt session
                          files clear))).
Proof.
  intros Hnd. unfold nutrition_document_uploader.
  destruct files as [|f fs]; [assumption|].
  destruct clear; [constructor|].
  exact (fold_process_nodup (f :: fs) (stored session) Hnd).
Qed.

Lemma stored_as_absent (name : string) (docs : list Document) :
  ~ In name (names docs) -> stored_as name docs = 0.
Proof.
  unfold stored_as, names.
  induction docs as [|d ds IH]; simpl; intros Hnot; [reflexivity|].
  destruct (String.eqb_spec (doc_name d) name) as [He|Hne]; [tauto|].
  apply IH. tauto.
Qed.

Lemma stored_as_nodup (name : string) (docs : list Document) :
  NoDup (names docs) -> In name (names docs) -> stored_as name docs = 1.
Proof.
  induction docs as [|d ds IH]; simpl; intros Hnd Hin; [contradiction|].
  inversion Hnd as [|? ? Hnotin Hnd']; subst.
  unfold stored_as in *. simpl.
  destruct (String.eqb_spec (doc_name d) name) as [He|Hne].
  - simpl. f_equal. apply stored_as_absent. now rewrite <- He.
  - destruct Hin as [Hin|Hin]; [contradiction|]. now apply IH.
Qed.

(** C9: a file whose name is stored is skipped; however the page is run,
    no two stored documents share a name; and once a file has been stored,
    uploading the same name again leaves exactly one document of that
    name. *)
Theorem upload_idempotent_per_name :
  (forall (docs : list Document) (file : UploadedFile),
      In (file_name file) (names docs) ->
      process_new_file pdf csv txt docs file = docs
      /\ nutrition_document_uploader pdf csv txt (Some docs) [file] false
         = Some docs)
  /\ (forall runs : list (list UploadedFile * bool),
         NoDup (names (stored (run_uploads pdf csv txt None runs))))
  /\ (forall (docs : list Document) (file again : UploadedFile),
         NoDup (names docs) ->
         file_name again = file_name file ->
         In (file_name file)
            (names (stored (nutrition_document_uploader
                              pdf csv txt (Some docs) [file] false))) ->
         nutrition_document_uploader pdf csv txt
           (nutrition_document_uploader pdf csv txt (Some docs) [file] false)
           [again] false
         = nutrition_document_uploader pdf csv txt (Some docs) [file] false
         /\ stored_as (file_name file)
              (stored (nutrition_document_uploader pdf csv txt
                         (nutrition_document_uploader
                            pdf csv txt (Some docs) [file] false)
                         [again] false)) = 1).
Proof.
  split; [|split].
  - intros docs file Hin. split; [now apply process_known_name|].
    simpl. now rewrite process_known_name.
  - intros runs. unfold run_uploads.
    assert (H : forall s, NoDup (names (stored s)) ->
              NoDup (names (stored
                (fold_left (fun s r =>
                   nutrition_document_uploader pdf csv txt s (fst r) (snd r))
                 runs s)))).
    { induction runs as [|r rs IH]; intros s Hs; simpl; [assumption|].
      apply IH. now apply uploader_nodup. }
    apply H. constructor.
  - intros docs file again Hnd Hname Hin. simpl in *.
    rewrite <- Hname in Hin.
    rewrite (process_known_name _ again Hin). split; [reflexivity|].
    rewrite Hname in Hin.
    apply stored_as_nodup; [now apply process_new_file_nodup | assumption].
Qed.

End UploaderFacts.

Lemma upload_idempotent_per_name_witness :
  stored_as "plan.txt"
    (stored
       (nutrition_document_uploader file_bytes file_bytes file_bytes
          (nutrition_document_uploader file_bytes file_bytes file_bytes
             (Some []) [mkUploadedFile "plan.txt" "text/plain" "eat greens"]
             false)
          [mkUploadedFile "plan.txt" "text/plain" "eat more greens"] false))
  = 1.
Proof.
  destruct (upload_idempotent_per_name file_bytes file_bytes file_bytes)
    as (_ & _ & Htwice).
  apply (Htwice [] (mkUploadedFile "plan.txt" "text/plain" "eat greens")
                (mkUploadedFile "plan.txt" "text/plain" "eat more greens")).
  - constructor.
  - reflexivity.
  - vm_compute. left. reflexivity.
Defined.

(* ================================================================== *)
(** ** The recipe filter                                               *)
(* ================================================================== *)

Section RecipeFilter.

Lemma append_assoc (s t u : string) :
  ((s ++ t) ++ u)%string = (s ++ (t ++ u))%string.
Proof. induction s as [|c s IH]; simpl; [reflexivity | now rewrite IH]. Qed.

Lemma in_str_empty (s : string) : in_str EmptyString s = true.
Proof. destruct s; reflexivity. Qed.

Lemma check_allergens_fold (recipe_lower : string) (l acc : list string)
  (safe : bool) :
  fold_left
    (fun st allergy =>
       if in_str allergy recipe_lower then (fst st ++ [allergy], false)
       else st)
    l (acc, safe)
  = (acc ++ filter (fun allergy => in_str allergy recipe_lower) l,
     safe && is_nil (filter (fun allergy => in_str allergy recipe_lower) l)).
Proof.
  revert acc safe. induction l as [|x l IH]; intros acc safe; simpl.
  - now rewrite app_nil_r, andb_true_r.
  - destruct (in_str x recipe_lower); simpl.
    + rewrite IH, <- app_assoc. simpl. now rewrite andb_false_r.
    + apply IH.
Qed.

(** The loop over the allergies collects the allergies that occur in the
    recipe, and [is_safe] tells whether there was none. *)
Lemma check_allergens_spec (recipe_lower : string) (l : list string) :
  check_allergens recipe_lower l
  = (filter (fun allergy => in_str allergy recipe_lower) l,
     is_nil (filter (fun allergy => in_str allergy recipe_lower) l)).
Proof. unfold check_allergens. now rewrite check_allergens_fold. Qed.

Lemma check_unpreferred_fold (recipe_lower : string) (l acc : list string) :
  fold_left
    (fun detected food =>
       if in_str food recipe_lower then detected ++ [food] else detected)
    l acc
  = acc ++ filter (fun food => in_str food recipe_lower) l.
Proof.
  revert acc. induction l as [|x l IH]; intros acc; simpl.
  - now rewrite app_nil_r.
  - destruct (in_str x recipe_lower).
    + rewrite IH, <- app_assoc. reflexivity.
    + apply IH.
Qed.

Lemma check_unpreferred_spec (recipe_lower : string) (l : list string) :
  check_unpreferred recipe_lower l
  = filter (fun food => in_str food recipe_lower) l.
Proof. unfold check_unpreferred. now rewrite check_unpreferred_fold. Qed.

Lemma filter_none {A : Type} (p : A -> bool) (l : list A) :
  (forall x, In x l -> p x = false) -> filter p l = [].
Proof.
  induction l as [|x l IH]; simpl; intros H; [reflexivity|].
  rewrite (H x) by now left. apply IH. intros y Hy. apply H. now right.
Qed.

(** C8: the filtered content ends with the recipe text as it came in; with
    warnings it is a blank line, the warnings, the notice about allergies
    when the recipe is unsafe, a blank line and the recipe; without warnings,
    and so whenever no allergy and no unpreferred food occurs in the recipe,
    it is the recipe itself. *)
Theorem filter_recipe_keeps_recipe_text
  (recipe_text user_allergies_str : string)
  (unpreferred_foods_list : list string)
  (is_safe : bool) (filtered_content : string) (warnings : list string) :
  filter_recipe_for_user_safety recipe_text user_allergies_str
                                unpreferred_foods_list
  = (is_safe, filtered_content, warnings) ->
  (exists before, filtered_content = (before ++ recipe_text)%string)
  /\ (warnings = [] -> filtered_content = recipe_text)
  /\ (warnings <> [] ->
      filtered_content
      = (nl ++ nl ++ join nl warnings
            ++ (if is_safe then EmptyString else nl ++ nl ++ consult_notice)
            ++ nl ++ nl ++ recipe_text)%string)
  /\ ((forall allergy, In allergy (parse_allergies user_allergies_str) ->
                       in_str allergy (lower recipe_text) = false) ->
      (forall food, In food unpreferred_foods_list ->
                    in_str (lower (strip food)) (lower recipe_text) = false) ->
      is_safe = true /\ warnings = [] /\ filtered_content = recipe_text).
Proof.
  unfold filter_recipe_for_user_safety.
  rewrite check_allergens_spec, check_unpreferred_spec.
  set (detected_allergens := filter _ (parse_allergies user_allergies_str)).
  set (detected_unpreferred := filter _ (map _ unpreferred_foods_list)).
  set (w1 := match detected_allergens with [] => [] | _ :: _ => _ end).
  set (ws := match detected_unpreferred with [] => w1 | _ :: _ => _ end).
  intros Heq. injection Heq as Hsafe Hcontent Hwarn.
  rewrite Hwarn in Hcontent.
  assert (Hshape : warnings <> [] ->
            filtered_content
            = (nl ++ nl ++ join nl warnings
                 ++ (if is_safe then EmptyString
                     else nl ++ nl ++ consult_notice)
                 ++ nl ++ nl ++ recipe_text)%string).
  { intros Hne. destruct warnings as [|x xs]; [contradiction|].
    rewrite <- Hcontent, <- Hsafe.
    destruct (is_nil detected_allergens); cbn [negb].
    all: unfold nl; cbn [append]; rewrite ?append_assoc; reflexivity. }
  assert (Hplain : warnings = [] -> filtered_content = recipe_text).
  { intros ->. now symmetry. }
  split; [|split; [exact Hplain | split; [exact Hshape|]]].
  - destruct warnings as [|x xs].
    + exists EmptyString. now rewrite Hplain.
    + rewrite Hshape by discriminate. eexists.
      rewrite <- !append_assoc. reflexivity.
  - intros Hallergy Hfood.
    assert (Hda : detected_allergens = []) by now apply filter_none.
    assert (Hdu : detected_unpreferred = []).
    { apply filter_none. intros x Hx.
      apply in_map_iff in Hx as (food & <- & Hin). auto. }
    assert (Hw : warnings = []).
    { rewrite <- Hwarn. subst ws w1. now rewrite Hdu, Hda. }
    repeat split; [| exact Hw | exact (Hplain Hw)].
    rewrite <- Hsafe. now rewrite Hda.
Qed.

Lemma filter_recipe_keeps_recipe_text_witness :
  exists before,
    snd (fst (filter_recipe_for_user_safety
                "Peanut Butter Sauce" "peanut, shellfish" ["sauce"]))
    = (before ++ "Peanut Butter Sauce")%string.
Proof.
  destruct (filter_recipe_keeps_recipe_text
              "Peanut Butter Sauce" "peanut, shellfish" ["sauce"]
              _ _ _ eq_refl) as (Hends & _).
  exact Hends.
Defined.

Lemma parse_peanuts_shellfish :
  parse_allergies "peanuts, shellfish" = ["peanuts"; "shellfish"].
Proof. reflexivity. Qed.

(** C3 as the specification words it fails: the text "Peanut Butter Sauce"
    contains "peanut" but not the allergy "peanuts", and passes as safe. *)
Lemma filter_recipe_peanut_butter_sauce_passes :
  in_str "Peanut Butter Sauce" "Peanut Butter Sauce" = true
  /\ filter_recipe_for_user_safety "Peanut Butter Sauce"
                                   "peanuts, shellfish" []
     = (true, "Peanut Butter Sauce", []).
Proof. split; reflexivity. Qed.

(** C3, as the code has it: with the allergies "peanuts, shellfish" and no
    unpreferred food the recipe is unsafe exactly when its lower-cased text
    contains "peanuts" or "shellfish"; when it contains "peanuts", the one
    warning is the allergy warning and lists "peanuts" first; when it contains
    neither, the recipe is returned safe, unchanged and with no warning (so a
    recipe that only says "Peanut Butter Sauce" passes). *)
Theorem filter_recipe_peanuts_allergy (recipe_text : string) :
  (fst (fst (filter_recipe_for_user_safety recipe_text
                                           "peanuts, shellfish" [])) = false
   <-> in_str "peanuts" (lower recipe_text) = true
       \/ in_str "shellfish" (lower recipe_text) = true)
  /\ (in_str "peanuts" (lower recipe_text) = true ->
      fst (fst (filter_recipe_for_user_safety recipe_text
                                              "peanuts, shellfish" [])) = false
      /\ exists others,
          snd (filter_recipe_for_user_safety recipe_text
                                             "peanuts, shellfish" [])
          = [(allergy_warning_head ++ join ", " ("peanuts" :: others))%string])
  /\ (in_str "peanuts" (lower recipe_text) = false ->
      in_str "shellfish" (lower recipe_text) = false ->
      filter_recipe_for_user_safety recipe_text "peanuts, shellfish" []
      = (true, recipe_text, [])).
Proof.
  unfold filter_recipe_for_user_safety.
  rewrite check_allergens_spec, check_unpreferred_spec, parse_peanuts_shellfish.
  cbn [map filter].
  destruct (in_str "peanuts" (lower recipe_text)) eqn:Hp;
    destruct (in_str "shellfish" (lower recipe_text)) eqn:Hs;
    cbn [is_nil fst snd app]; (split; [split|split]); intros;
    try discriminate; try reflexivity;
    try tauto; try (now left); try (now right).
  - split; [reflexivity|]. now exists ["shellfish"].
  - split; [reflexivity|]. now exists [].
  - destruct H; discriminate.
Qed.

Lemma filter_recipe_peanuts_allergy_witness :
  fst (fst (filter_recipe_for_user_safety
              "Salted Peanuts with Peanut Butter Sauce"
              "peanuts, shellfish" [])) = false.
Proof.
  destruct (filter_recipe_peanuts_allergy
              "Salted Peanuts with Peanut Butter Sauce") as (_ & Hlisted & _).
  destruct (Hlisted eq_refl) as (Hunsafe & _). exact Hunsafe.
Defined.

(** C10: when the allergies string is not empty and one of its
    comma-separated entries is empty after trimming, that empty entry is
    detected in every recipe, and every recipe is reported unsafe. *)
Theorem empty_allergy_entry_flags_every_recipe
  (recipe_text user_allergies_str : string)
  (unpreferred_foods_list : list string) :
  truthy user_allergies_str = true ->
  In EmptyString (map (fun allergy => lower (strip allergy))
                      (split_on "," user_allergies_str)) ->
  in_str EmptyString (lower recipe_text) = true
  /\ In EmptyString
        (fst (check_allergens (lower recipe_text)
                              (parse_allergies user_allergies_str)))
  /\ fst (fst (filter_recipe_for_user_safety recipe_text user_allergies_str
                                             unpreferred_foods_list)) = false.
Proof.
  intros Hstr Hempty.
  assert (Hin : In EmptyString
                  (filter (fun allergy => in_str allergy (lower recipe_text))
                          (parse_allergies user_allergies_str))).
  { apply filter_In. split; [|apply in_str_empty].
    unfold parse_allergies. now rewrite Hstr. }
  split; [apply in_str_empty|].
  unfold filter_recipe_for_user_safety.
  rewrite check_allergens_spec. cbn [fst]. split; [exact Hin|].
  destruct (filter _ (parse_allergies user_allergies_str));
    [contradiction | reflexivity].
Qed.

Lemma empty_allergy_entry_flags_every_recipe_witness :
  fst (fst (filter_recipe_for_user_safety "Steamed rice" "peanuts," []))
  = false
  /\ fst (fst (filter_recipe_for_user_safety "Steamed rice" "   " []))
     = false.
Proof.
  split.
  - apply (empty_allergy_entry_flags_every_recipe "Steamed rice" "peanuts," []).
    + reflexivity.
    + vm_compute. right. left. reflexivity.
  - apply (empty_allergy_entry_flags_every_recipe "Steamed rice" "   " []).
    + reflexivity.
    + vm_compute. left. reflexivity.
Defined.

End RecipeFilter.

(* ================================================================== *)
(** ** The nutrition estimator and the safety filter                   *)
(* ================================================================== *)

Section Estimator.

(** C5: without an answer of the service, "2 eggs" in "2 servings" is found
    in the local table and gives 140 calories, and "xyzfood" is estimated
    from the default baseline, not scaled. *)
Theorem calculate_nutrition_local_and_estimated :
  ne_calories (calculate_nutrition None "2 eggs" "2 servings") = 140%Z
  /\ ne_source (calculate_nutrition None "2 eggs" "2 servings")
     = "Local Database"
  /\ ne_success (calculate_nutrition None "2 eggs" "2 servings") = true
  /\ ne_source (calculate_nutrition None "xyzfood" "1 serving") = "Estimated"
  /\ ne_success (calculate_nutrition None "xyzfood" "1 serving") = false
  /\ estimated_nutrition (lower "xyzfood") = mkBaseline 150 8.0 20.0 5.0
  /\ (multiplier_of (lower "xyzfood") "1 serving" == 1)%Q
  /\ ne_calories (calculate_nutrition None "xyzfood" "1 serving") = 150%Z
  /\ (ne_protein (calculate_nutrition None "xyzfood" "1 serving") == 8.0)%Q
  /\ (ne_carbs (calculate_nutrition None "xyzfood" "1 serving") == 20.0)%Q
  /\ (ne_fat (calculate_nutrition None "xyzfood" "1 serving") == 5.0)%Q.
Proof. repeat split. Qed.

End Estimator.

Section SafetyFilter.

(** C7: the two example texts, checked by the patterns alone, and the
    verdict: [is_safe] holds exactly when nothing was flagged, with or
    without the classifiers. *)
Theorem check_nutrition_safety_verdict (backend : option Classifiers)
  (text : string) :
  check_nutrition_safety None "stop eating and starve yourself"
  = (false, ["stop eating"; "starve yourself"])
  /\ check_nutrition_safety None "grilled chicken with broccoli" = (true, [])
  /\ (fst (check_nutrition_safety None text) = true
      <-> snd (check_nutrition_safety None text) = [])
  /\ (fst (check_nutrition_safety backend text) = true
      <-> snd (check_nutrition_safety backend text) = []).
Proof.
  assert (Hverdict : forall b,
             fst (check_nutrition_safety b text) = true
             <-> snd (check_nutrition_safety b text) = []).
  { intros b. unfold check_nutrition_safety. cbn [fst snd].
    match goal with
    | |- context [(List.length ?f =? 0)%nat] => generalize f
    end.
    intros flagged. destruct flagged; simpl; split; congruence. }
  repeat split; try reflexivity; apply Hverdict.
Qed.

End SafetyFilter.

(* ================================================================== *)
(** ** The request handler                                             *)
(* ================================================================== *)

Section HandlerFacts.
Variable extract_nutrition_data : string -> Extracted.
Variable w : World.
Variable a : Args.

Lemma keeps_ret {A : Type} (x : A) : keeps_history (ret x).
Proof. intros s. reflexivity. Qed.

Lemma keeps_raise {A : Type} : keeps_history (@raise A).
Proof. intros s. reflexivity. Qed.

Lemma keeps_lift {A : Type} (o : outcome A) : keeps_history (lift o).
Proof. intros s. reflexivity. Qed.

Lemma keeps_gets {A : Type} (f : Session -> A) : keeps_history (gets f).
Proof. intros s. reflexivity. Qed.

Lemma keeps_modify (f : Session -> Session) :
  (forall s, chat_history (f s) = chat_history s) ->
  keeps_history (modify f).
Proof. intros H s. apply H. Qed.

Lemma keeps_bind {A B : Type} (m : M A) (k : A -> M B) :
  keeps_history m -> (forall x, keeps_history (k x)) ->
  keeps_history (bind m k).
Proof.
  intros Hm Hk s. unfold bind. specialize (Hm s).
  destruct (m s) as [[x|] s1]; simpl in *; [|assumption].
  now rewrite Hk.
Qed.

Lemma quiet_ret {A : Type} (x : A) : quiet (ret x).
Proof. intros s. now exists x, s. Qed.

Lemma quiet_modify (f : Session -> Session) :
  (forall s, chat_history (f s) = chat_history s) -> quiet (modify f).
Proof. intros H s. exists tt, (f s). split; [reflexivity | apply H]. Qed.

Lemma quiet_bind {A B : Type} (m : M A) (k : A -> M B) :
  quiet m -> (forall x, quiet (k x)) -> quiet (bind m k).
Proof.
  intros Hm Hk s. unfold bind.
  destruct (Hm s) as (x & s1 & -> & H1).
  destruct (Hk x s1) as (y & s2 & -> & H2).
  exists y, s2. split; [reflexivity | congruence].
Qed.

Create HintDb history.
Hint Resolve keeps_ret keeps_raise keeps_lift keeps_gets quiet_ret : history.

Lemma streaming_answer_keeps : keeps_history (streaming_answer w).
Proof.
  unfold streaming_answer.
  destruct (generate_nutrition_response (generate_stream w));
    [|auto with history].
  apply keeps_bind; [auto with history|]. intros response_text.
  apply keeps_bind; [auto with history|]. intros profile.
  apply keeps_bind; [|auto with history].
  destruct (mentions recipe_keywords response_text).
  - destruct (filter_recipe_for_user_safety _ _ _) as [[? ?] ?].
    now apply keeps_modify.
  - now apply keeps_modify.
Qed.

Lemma plain_answer_keeps : keeps_history (plain_answer w).
Proof.
  unfold plain_answer.
  destruct (generate_nutrition_response (generate_text w));
    [|auto with history].
  apply keeps_bind; [auto with history|]. intros response_text.
  apply keeps_bind; [now apply keeps_modify | auto with history].
Qed.

Lemma recipe_filtering_keeps (response_text : string) :
  keeps_history (recipe_filtering response_text).
Proof.
  unfold recipe_filtering.
  destruct (_ && _); auto with history.
Qed.

Lemma meal_logging_quiet (function_result : option NutritionEstimate)
  (extracted : NutritionField) (final_response : string) :
  quiet (meal_logging w a function_result extracted final_response).
Proof.
  unfold meal_logging.
  destruct (_ && _); [now apply quiet_modify | auto with history].
Qed.

Lemma late_quiet {A : Type} (m : M A) : quiet m -> late w m.
Proof.
  intros Hm s. destruct (Hm s) as (x & s' & -> & H).
  split; [exact H | discriminate].
Qed.

Lemma late_bind {A B : Type} (m : M A) (k : A -> M B) :
  late w m -> (forall x, late w (k x)) -> late w (bind m k).
Proof.
  intros Hm Hk s. unfold bind. destruct (Hm s) as (Hh & Hr).
  destruct (m s) as [[x|] s1]; cbn [fst snd] in *.
  - destruct (Hk x s1) as (Hh' & Hr'). split; [congruence | exact Hr'].
  - split; [exact Hh | intros _; now apply Hr].
Qed.

Lemma token_usage_late : late w (token_usage w a).
Proof.
  intros s. unfold token_usage.
  destruct (has_response w a); [|split; [reflexivity | discriminate]].
  destruct (usage_metadata w); split; try reflexivity; try discriminate.
Qed.

Lemma records_at_bind {A : Type} (P : ChatEntry -> Prop) (m : M A)
  (k : A -> M unit) (s : Session) :
  chat_history (snd (m s)) = chat_history s ->
  (forall x s1, m s = (Ok x, s1) -> records_at w P (k x) s1) ->
  records_at w P (bind m k) s.
Proof.
  intros Hm Hk. unfold records_at, bind.
  destruct (m s) as [[x|] s1] eqn:Hrun; cbn [snd] in Hm.
  - destruct (Hk x s1 eq_refl)
      as [(s' & -> & H)|[(e & s' & -> & He & H)|(e & s' & -> & He & Hu & H)]].
    + left. exists s'. split; [reflexivity | congruence].
    + right. left. exists e, s'. repeat split; [assumption | congruence].
    + right. right. exists e, s'. repeat split; [assumption.. | congruence].
  - left. now exists s1.
Qed.

Lemma records_at_append (e : ChatEntry) (rest : M unit) (s : Session) :
  late w rest ->
  records_at w (eq e) (bind (modify (append_chat e)) (fun _ => rest)) s.
Proof.
  intros Hrest. unfold records_at, bind, modify.
  destruct (Hrest (append_chat e s)) as (Hh & Hr).
  destruct (rest (append_chat e s)) as [[[]|] s'] eqn:Hrun; cbn [fst snd] in *.
  - right. left. exists e, s'. repeat split. exact Hh.
  - right. right. exists e, s'. repeat split; [now apply Hr | exact Hh].
Qed.

Lemma records_at_weaken (P Q : ChatEntry -> Prop) (m : M unit)
  (s : Session) :
  (forall e, P e -> Q e) -> records_at w P m s -> records_at w Q m s.
Proof.
  intros HPQ [H|[(e & s' & H & He & Hh)|(e & s' & H & He & Hu & Hh)]].
  - now left.
  - right. left. exists e, s'. auto.
  - right. right. exists e, s'. auto.
Qed.

(** The branch that is taken returns the text of the answer. *)
Lemma answer_stage_text (s : Session) :
  fst ((if enable_streaming a then streaming_answer w else plain_answer w) s)
  = answer_text w a.
Proof.
  unfold answer_text, streaming_answer, plain_answer.
  destruct (enable_streaming a).
  - destruct (generate_nutrition_response (generate_stream w)) as [chunks|];
      [|reflexivity].
    unfold bind, lift, gets.
    destruct (read_stream chunks EmptyString) as [text|]; [|reflexivity].
    destruct (mentions recipe_keywords text); [|reflexivity].
    now destruct (filter_recipe_for_user_safety text _ _) as [[? ?] ?].
  - destruct (generate_nutrition_response (generate_text w)) as [[text|]|];
      reflexivity.
Qed.

(** The [try] block raises before its record, or appends it and returns, or
    appends it and raises at the token count. *)
Lemma request_body_records (function_result : option NutritionEstimate)
  (s : Session) :
  records_at w (answer_record extract_nutrition_data w a function_result)
             (request_body extract_nutrition_data w a function_result) s.
Proof.
  unfold request_body.
  apply records_at_bind.
  { destruct (uploaded_image_data a); [apply keeps_lift | apply keeps_ret]. }
  intros _image_data s1 _. apply records_at_bind.
  { destruct (enable_streaming a);
      [apply streaming_answer_keeps | apply plain_answer_keeps]. }
  intros response_text s2 Hanswer.
  assert (Htext : answer_text w a = Ok response_text).
  { rewrite <- (answer_stage_text s1), Hanswer. reflexivity. }
  apply records_at_bind; [apply recipe_filtering_keeps|].
  intros _ s3 _. apply records_at_bind.
  { destruct function_result; [now apply keeps_modify | apply keeps_ret]. }
  intros _ s4 _.
  eapply records_at_weaken; [|apply records_at_append].
  - intros e <-. exists response_text. auto.
  - apply late_bind; [apply late_quiet, meal_logging_quiet|]. intros _.
    apply late_bind; [apply token_usage_late|]. intros _.
    apply late_quiet.
    destruct (_ && _); [now apply quiet_modify | apply quiet_ret].
Qed.

(** X30: the handler always returns, and never leaves a request without a
    record: a blocked prompt gets the blocked record; a [try] block that
    raises before its own record gets the apology; one that completes gets
    the record of the answer; and one that raises after its record, which
    only the token count of the answer can cause, gets the record of the
    answer followed by the apology.  So the chat history grows by one
    record, or by two, and by exactly one whenever the token count can be
    read. *)
Theorem process_nutrition_request_records_once_or_twice (s : Session) :
  exists s',
    process_nutrition_request extract_nutrition_data w a s = (Ok tt, s')
    /\ ((fst (check_nutrition_safety (backend w) (prompt_to_use a)) = false
         /\ chat_history s'
            = chat_history s ++ [chat_entry w a flagged_response None NoData])
        \/ (fst (check_nutrition_safety (backend w) (prompt_to_use a)) = true
            /\ fst (request_body extract_nutrition_data w a
                                 (function_calling w a) s) = Raise
            /\ chat_history s'
               = chat_history s ++ [chat_entry w a apology_text None NoData])
        \/ (fst (check_nutrition_safety (backend w) (prompt_to_use a)) = true
            /\ fst (request_body extract_nutrition_data w a
                                 (function_calling w a) s) = Ok tt
            /\ exists e, answer_record extract_nutrition_data w a
                                       (function_calling w a) e
                         /\ chat_history s' = chat_history s ++ [e])
        \/ (fst (check_nutrition_safety (backend w) (prompt_to_use a)) = true
            /\ fst (request_body extract_nutrition_data w a
                                 (function_calling w a) s) = Raise
            /\ usage_metadata w = UsageRaises
            /\ exists e, answer_record extract_nutrition_data w a
                                       (function_calling w a) e
                         /\ chat_history s'
                            = chat_history s
                                ++ [e; chat_entry w a apology_text None
                                                  NoData]))
    /\ (usage_metadata w <> UsageRaises ->
        List.length (chat_history s') = S (List.length (chat_history s)))
    /\ S (List.length (chat_history s)) <= List.length (chat_history s')
       <= S (S (List.length (chat_history s))).
Proof.
  unfold process_nutrition_request.
  destruct (check_nutrition_safety (backend w) (prompt_to_use a))
    as [is_safe flagged_terms].
  cbn [fst]. destruct is_safe; cbn [negb].
  - unfold try_except.
    destruct (request_body_records (function_calling w a) s)
      as [(s1 & Hrun & Hh)
         |[(e & s1 & Hrun & He & Hh)|(e & s1 & Hrun & He & Hu & Hh)]];
      rewrite Hrun; cbn [fst].
    + eexists. split; [reflexivity|].
      cbn [modify append_chat snd chat_history]. rewrite Hh.
      split; [right; left; auto|].
      rewrite length_app. simpl. split; [intros _|]; lia.
    + exists s1. split; [reflexivity|]. rewrite Hh.
      split; [right; right; left; eauto|].
      rewrite length_app. simpl. split; [intros _|]; lia.
    + eexists. split; [reflexivity|].
      cbn [modify append_chat snd chat_history]. rewrite Hh, <- app_assoc.
      split; [right; right; right; eauto 6|].
      rewrite length_app. simpl. split; [intros H; contradiction|lia].
  - eexists. split; [reflexivity|].
    cbn [modify append_chat chat_history].
    split; [left; auto|].
    rewrite length_app. simpl. split; [intros _|]; lia.
Qed.

End HandlerFacts.


(** Worked runs of the handler on an empty session. *)
Section HandlerExamples.

Let responses (w : World) (a : Args) : list string :=
  map ce_response
      (chat_history (snd (process_nutrition_request no_extraction w a
                                                    fresh_session))).

Example blocked_prompt_is_recorded :
  responses (offline_world Raise (Ok (Ok "Eat well.")))
            (text_question "how do I starve yourself" false)
  = ["Content flagged for safety and blocked"].
Proof. reflexivity. Qed.

Example plain_answer_is_recorded :
  responses (offline_world Raise (Ok (Ok "Eat more greens.")))
            (text_question "what should I eat" false)
  = ["Eat more greens."].
Proof. reflexivity. Qed.

Example failed_generation_is_recorded :
  responses (offline_world Raise Raise)
            (text_question "what should I eat" false)
  = ["Sorry, I couldn't generate a response. Please try again."].
Proof. reflexivity. Qed.

Example unreadable_answer_is_recorded :
  responses (offline_world Raise (Ok Raise))
            (text_question "what should I eat" false)
  = ["Sorry, there was an issue processing your request. Please try again."].
Proof. reflexivity. Qed.

Example broken_stream_is_recorded :
  responses (offline_world (Ok [ChunkText "Eat "; ChunkRaises]) Raise)
            (text_question "what should I eat" true)
  = ["Sorry, there was an issue processing your request. Please try again."].
Proof. reflexivity. Qed.

Example streamed_answer_is_recorded :
  responses (offline_world
               (Ok [ChunkText "Eat "; ChunkWithoutText; ChunkText "greens."])
               Raise)
            (text_question "what should I eat" true)
  = ["Eat greens."].
Proof. reflexivity. Qed.

(** An answer that mentions a recipe reaches the call with the missing
    arguments; the record holds the apology, not the answer. *)
Example answer_with_recipe_is_recorded_as_apology :
  responses (offline_world Raise (Ok (Ok "A recipe: oats and milk.")))
            (text_question "what should I eat" false)
  = ["Sorry, there was an issue processing your request. Please try again."].
Proof. reflexivity. Qed.

End HandlerExamples.

(* ================================================================== *)
(** ** More facts about the text operations                            *)
(* ================================================================== *)

Section MoreTextFacts.

Lemma append_nil_r (s : string) : (s ++ EmptyString)%string = s.
Proof. induction s as [|c s IH]; simpl; [reflexivity | now rewrite IH]. Qed.

Lemma lower_char_idem (c : ascii) : lower_char (lower_char c) = lower_char c.
Proof. destruct c as [[] [] [] [] [] [] [] []]; reflexivity. Qed.

Lemma lower_idem (s : string) : lower (lower s) = lower s.
Proof.
  induction s as [|c s IH]; simpl; [reflexivity|].
  now rewrite lower_char_idem, IH.
Qed.

Lemma lower_app (s t : string) :
  lower (s ++ t) = (lower s ++ lower t)%string.
Proof. induction s as [|c s IH]; simpl; [reflexivity | now rewrite IH]. Qed.

Lemma starts_with_spec (p h : string) :
  starts_with p h = true <-> exists post, h = (p ++ post)%string.
Proof.
  revert h. induction p as [|a p IH]; intros h; simpl.
  - split; [intros _; now exists h | reflexivity].
  - destruct h as [|b h].
    + split; [discriminate | intros (post & H); discriminate].
    + rewrite andb_true_iff, IH. split.
      * intros (Hab & post & ->). apply Ascii.eqb_eq in Hab. subst b.
        now exists post.
      * intros (post & H). injection H as -> ->. split.
        -- apply Ascii.eqb_refl.
        -- now exists post.
Qed.

(** [needle in hay] holds exactly when the hay is the needle between two
    texts. *)
Lemma in_str_spec (needle hay : string) :
  in_str needle hay = true
  <-> exists pre post, hay = (pre ++ needle ++ post)%string.
Proof.
  induction hay as [|c h IH].
  - simpl. rewrite orb_false_r, starts_with_spec. split.
    + intros (post & H). now exists EmptyString, post.
    + intros (pre & post & H). destruct pre; [|discriminate].
      now exists post.
  - cbn [in_str]. rewrite orb_true_iff, starts_with_spec, IH. split.
    + intros [(post & H)|(pre & post & H)].
      * now exists EmptyString, post.
      * exists (String c pre), post. simpl. now rewrite H.
    + intros (pre & post & H). destruct pre as [|d pre].
      * left. now exists post.
      * right. simpl in H. injection H as _ H. now exists pre, post.
Qed.

Lemma in_str_trans (a b c : string) :
  in_str a b = true -> in_str b c = true -> in_str a c = true.
Proof.
  rewrite !in_str_spec. intros (p1 & q1 & ->) (p2 & q2 & ->).
  exists (p2 ++ p1)%string, (q1 ++ q2)%string.
  now rewrite !append_assoc.
Qed.

Lemma in_str_lower (a b : string) :
  in_str a b = true -> in_str (lower a) (lower b) = true.
Proof.
  rewrite !in_str_spec. intros (p & q & ->).
  exists (lower p), (lower q). now rewrite !lower_app.
Qed.

Lemma in_str_refl (s : string) : in_str s s = true.
Proof.
  apply in_str_spec. exists EmptyString, EmptyString.
  simpl. now rewrite append_nil_r.
Qed.

Lemma split_aux_word (v w r : string) :
  no_space v = true ->
  split_aux w (v ++ r) = split_aux (w ++ v) r.
Proof.
  revert w. induction v as [|c v IH]; intros w Hv; simpl.
  - now rewrite append_nil_r.
  - simpl in Hv. apply andb_true_iff in Hv as [Hc Hv].
    apply negb_true_iff in Hc. rewrite Hc, IH by assumption.
    now rewrite append_assoc.
Qed.

(** Splitting the join of words gives the words back. *)
Lemma split_join_words (ws : list string) :
  Forall is_word ws -> split (join " " ws) = ws.
Proof.
  unfold split. induction ws as [|w ws IH]; intros Hall; [reflexivity|].
  inversion Hall as [|? ? [Ht Hs] Hrest]; subst.
  destruct ws as [|v ws].
  - simpl. rewrite <- (append_nil_r w) at 1.
    rewrite split_aux_word by assumption. simpl. now rewrite Ht.
  - change (join " " (w :: v :: ws))
      with (w ++ String " " (join " " (v :: ws)))%string.
    rewrite split_aux_word by assumption. cbn [append split_aux].
    change (is_space " ") with true. cbn iota. rewrite Ht.
    f_equal. now apply IH.
Qed.

Lemma Forall_slice {A : Type} (P : A -> Prop) (l : list A) (lo hi : Z) :
  Forall P l -> Forall P (slice l lo hi).
Proof.
  rewrite !Forall_forall. intros H x Hx. apply H.
  now apply in_slice in Hx.
Qed.

(** What one round of the chunking loop appends. *)
Lemma chunk_of_words (ws : list string) :
  Forall is_word ws ->
  match ws with
  | [] => truthy (strip (join " " ws)) = false
  | _ :: _ => truthy (strip (join " " ws)) = true
              /\ strip (join " " ws) = join " " ws
  end.
Proof.
  intros Hall. destruct ws as [|w ws]; [reflexivity|].
  destruct (join_words_shape w ws Hall) as (Ht & Hl & Hr).
  unfold strip. rewrite Hl, Hr. auto.
Qed.

End MoreTextFacts.

(* ================================================================== *)
(** ** The chunker, continued                                          *)
(* ================================================================== *)

Section MoreChunker.

Lemma length_slice {A : Type} (l : list A) (lo hi : Z) :
  (0 <= lo)%Z -> (0 <= hi)%Z ->
  List.length (slice l lo hi)
  = Z.to_nat (Z.min hi (Z.of_nat (List.length l))
              - Z.min lo (Z.of_nat (List.length l))).
Proof.
  intros Hlo Hhi. unfold slice, clamp_index.
  destruct (Z.ltb_spec lo 0); [lia|]. destruct (Z.ltb_spec hi 0); [lia|].
  rewrite length_firstn, length_skipn. lia.
Qed.

Lemma nth_error_slice {A : Type} (l : list A) (lo hi : Z) (m : nat) :
  (0 <= lo)%Z -> (lo + Z.of_nat m < hi)%Z ->
  nth_error (slice l lo hi) m = nth_error l (Z.to_nat lo + m).
Proof.
  intros Hlo Hm. unfold slice, clamp_index.
  destruct (Z.ltb_spec lo 0); [lia|]. destruct (Z.ltb_spec hi 0); [lia|].
  rewrite nth_error_firstn, nth_error_skipn.
  destruct (Z.le_gt_cases (Z.of_nat (List.length l)) (lo + Z.of_nat m))
    as [Hout|Hin].
  - assert (Hnone : forall k, List.length l <= k -> nth_error l k = None)
      by (intros k; apply nth_error_None).
    rewrite (Hnone (Z.to_nat lo + m)) by lia.
    rewrite Hnone by lia. now destruct (_ <? _)%nat.
  - rewrite (Z.min_l lo) by lia.
    destruct (Nat.ltb_spec m
                (Z.to_nat (Z.min hi (Z.of_nat (List.length l)) - lo)));
      [reflexivity | lia].
Qed.

Lemma fold_left_invariant {A B : Type} (P : A -> Prop) (f : A -> B -> A)
  (l : list B) (acc : A) :
  P acc -> (forall a b, In b l -> P a -> P (f a b)) -> P (fold_left f l acc).
Proof.
  revert acc. induction l as [|b l IH]; intros acc Hacc Hstep; simpl;
    [assumption|].
  apply IH; [apply Hstep; [now left | assumption]|].
  intros a c Hc. apply Hstep. now right.
Qed.

Lemma fold_left_appends {A B : Type} (f : list A -> B -> list A)
  (g : B -> A) (l : list B) (acc : list A) :
  (forall a b, In b l -> f a b = a ++ [g b]) ->
  fold_left f l acc = acc ++ map g l.
Proof.
  revert acc. induction l as [|b l IH]; intros acc Hstep; simpl.
  - now rewrite app_nil_r.
  - rewrite Hstep by now left. rewrite IH by (intros; apply Hstep; now right).
    now rewrite <- app_assoc.
Qed.

(** X1: the loop fails exactly when the stride is zero, and runs no round when
    the overlap exceeds the window or the text has no word. *)
Theorem chunk_text_degenerate_strides (text : string)
  (chunk_size overlap : Z) :
  (chunk_text text chunk_size overlap = None <-> chunk_size = overlap)
  /\ ((chunk_size < overlap)%Z ->
      chunk_text text chunk_size overlap = Some [])
  /\ (split text = [] -> chunk_size <> overlap ->
      chunk_text text chunk_size overlap = Some []).
Proof.
  unfold chunk_text, range0.
  destruct (Z.eqb_spec (chunk_size - overlap) 0) as [Hz|Hnz].
  - repeat split; intros; try lia; try discriminate.
  - assert (Hne : chunk_size <> overlap) by lia.
    split; [split; [discriminate | contradiction]|]. split.
    + intros Hneg. destruct (Z.ltb_spec 0 (chunk_size - overlap)); [lia|].
      destruct (Z.ltb_spec (Z.of_nat (List.length (split text))) 0); [lia|].
      reflexivity.
    + intros Hempty _. rewrite Hempty. simpl List.length.
      change (Z.of_nat 0) with 0%Z.
      destruct (0 <? chunk_size - overlap)%Z; reflexivity.
Qed.

Lemma chunk_text_degenerate_strides_witness :
  chunk_text "eat more greens" 5 9 = Some []
  /\ chunk_text "   " 5 1 = Some [].
Proof.
  destruct (chunk_text_degenerate_strides "eat more greens" 5 9)
    as (_ & Hneg & _).
  destruct (chunk_text_degenerate_strides "   " 5 1) as (_ & _ & Hblank).
  split; [apply Hneg; lia | apply Hblank; [reflexivity | lia]].
Defined.

(** X2: every chunk is a run of consecutive words of the text joined by single
    blanks: it is not empty, has no white space at its ends, and splits into
    those words again. *)
Theorem chunk_text_chunks_are_word_runs (text : string)
  (chunk_size overlap : Z) (chunks : list string) :
  chunk_text text chunk_size overlap = Some chunks ->
  Forall (fun chunk =>
            truthy chunk = true
            /\ strip chunk = chunk
            /\ exists i : Z,
                (0 <= i)%Z
                /\ chunk = join " " (slice (split text) i (i + chunk_size))
                /\ split chunk = slice (split text) i (i + chunk_size))
         chunks.
Proof.
  unfold chunk_text.
  destruct (range0 _ _) as [starts|] eqn:Hrange; [|discriminate].
  intros H. injection H as <-.
  assert (Hnonneg : forall i, In i starts -> (0 <= i)%Z).
  { unfold range0 in Hrange.
    destruct (chunk_size - overlap =? 0)%Z; [discriminate|].
    injection Hrange as <-. intros i Hi.
    apply in_map_iff in Hi as (k & <- & Hk). apply in_seq in Hk.
    destruct (Z.ltb_spec 0 (chunk_size - overlap)); [nia|].
    destruct (Z.ltb_spec (Z.of_nat (List.length (split text))) 0);
      simpl in Hk; lia. }
  apply fold_left_invariant; [constructor|].
  intros acc i Hi Hacc. cbv beta zeta.
  pose proof (Forall_slice is_word (split text) i (i + chunk_size)
                           (split_words text)) as Hwords.
  pose proof (chunk_of_words _ Hwords) as Hchunk.
  pose proof (split_join_words _ Hwords) as Hsplit.
  destruct (slice (split text) i (i + chunk_size)) as [|w ws] eqn:Hslice.
  - now rewrite Hchunk.
  - destruct Hchunk as (Ht & Hs). rewrite Ht, Hs.
    apply Forall_app. split; [assumption|]. constructor; [|constructor].
    rewrite Hs. split; [now rewrite <- Hs|]. split; [reflexivity|].
    exists i. rewrite Hslice. auto.
Qed.

Lemma chunk_text_chunks_are_word_runs_witness :
  Forall (fun chunk => truthy chunk = true /\ strip chunk = chunk)
         ["a b"; "b c"; "c"].
Proof.
  pose proof (chunk_text_chunks_are_word_runs " a  b c " 2 1
                ["a b"; "b c"; "c"] eq_refl) as H.
  eapply Forall_impl; [|exact H]. intros chunk (Ht & Hs & _). auto.
Defined.

Lemma ceil_div_bounds (n step : Z) :
  (0 <= n)%Z -> (0 < step)%Z ->
  (0 <= (n + step - 1) / step)%Z
  /\ (step * ((n + step - 1) / step) < n + step)%Z
  /\ (n <= step * ((n + step - 1) / step))%Z.
Proof.
  intros Hn Hs.
  pose proof (Z.mul_div_le (n + step - 1) step Hs).
  pose proof (Z.mul_succ_div_gt (n + step - 1) step Hs).
  pose proof (Z.div_pos (n + step - 1) step). lia.
Qed.

Lemma range0_positive (n step : Z) :
  (0 <= n)%Z -> (0 < step)%Z ->
  range0 n step
  = Some (map (fun k => (Z.of_nat k * step)%Z)
              (seq 0 (Z.to_nat ((n + step - 1) / step)))).
Proof.
  intros Hn Hs. unfold range0.
  destruct (Z.eqb_spec step 0); [lia|].
  destruct (Z.ltb_spec 0 step); [|lia].
  destruct (Z.ltb_spec 0 n); [reflexivity|].
  assert (n = 0%Z) as -> by lia.
  now rewrite Z.div_small by lia.
Qed.

(** With a positive stride and a window of at least one word no round of the
    loop is dropped: the chunks are the windows at the multiples of the
    stride. *)
Lemma chunk_text_as_windows (text : string) (chunk_size overlap : Z) :
  (0 < chunk_size - overlap)%Z -> (1 <= chunk_size)%Z ->
  chunk_text text chunk_size overlap
  = Some (map (fun k =>
                 join " " (slice (split text)
                                 (Z.of_nat k * (chunk_size - overlap))
                                 (Z.of_nat k * (chunk_size - overlap)
                                  + chunk_size)))
              (seq 0 (Z.to_nat ((Z.of_nat (List.length (split text))
                                 + (chunk_size - overlap) - 1)
                                / (chunk_size - overlap))))).
Proof.
  intros Hstep Hsize. unfold chunk_text.
  rewrite range0_positive by lia. f_equal.
  rewrite (fold_left_appends _
             (fun i => join " " (slice (split text) i (i + chunk_size)))).
  - simpl. now rewrite map_map.
  - intros acc i Hi. apply in_map_iff in Hi as (k & <- & Hk).
    apply in_seq in Hk.
    destruct (ceil_div_bounds (Z.of_nat (List.length (split text)))
                (chunk_size - overlap)) as (H0 & Hlt & _); [lia | lia |].
    set (i := (Z.of_nat k * (chunk_size - overlap))%Z).
    assert (Hi : (0 <= i < Z.of_nat (List.length (split text)))%Z)
      by (subst i; nia).
    pose proof (Forall_slice is_word (split text) i (i + chunk_size)
                             (split_words text)) as Hwords.
    pose proof (chunk_of_words _ Hwords) as Hchunk.
    pose proof (length_slice (split text) i (i + chunk_size)) as Hlen.
    destruct (slice (split text) i (i + chunk_size)) as [|w ws].
    + simpl in Hlen. lia.
    + destruct Hchunk as (Ht & Hs). now rewrite Ht, Hs.
Qed.

(** X3: the number of chunks is the word count divided by the stride, rounded
    up, and chunk [k] is the window of [chunk_size] words that starts at word
    [k * (chunk_size - overlap)]. *)
Theorem chunk_text_count_and_windows (text : string)
  (chunk_size overlap : Z) :
  (0 < chunk_size - overlap)%Z -> (1 <= chunk_size)%Z ->
  exists chunks,
    chunk_text text chunk_size overlap = Some chunks
    /\ Z.of_nat (List.length chunks)
       = ((Z.of_nat (List.length (split text)) + (chunk_size - overlap) - 1)
          / (chunk_size - overlap))%Z
    /\ forall k, k < List.length chunks ->
         nth_error chunks k
         = Some (join " " (slice (split text)
                                 (Z.of_nat k * (chunk_size - overlap))
                                 (Z.of_nat k * (chunk_size - overlap)
                                  + chunk_size))).
Proof.
  intros Hstep Hsize. eexists. split; [now apply chunk_text_as_windows|].
  rewrite length_map, length_seq. split.
  - destruct (ceil_div_bounds (Z.of_nat (List.length (split text)))
                (chunk_size - overlap)); lia.
  - intros k Hk. rewrite nth_error_map, nth_error_seq.
    destruct (Nat.ltb_spec k (Z.to_nat
      ((Z.of_nat (List.length (split text)) + (chunk_size - overlap) - 1)
       / (chunk_size - overlap)))); [reflexivity | lia].
Qed.

Lemma chunk_text_count_and_windows_witness :
  exists chunks,
    chunk_text "a b c d e" 3 1 = Some chunks
    /\ Z.of_nat (List.length chunks) = 3%Z.
Proof.
  destruct (chunk_text_count_and_windows "a b c d e" 3 1)
    as (chunks & Heq & Hlen & _); [lia | lia |].
  exists chunks. split; [exact Heq | exact Hlen].
Defined.

(** X4: with an overlap that is not negative and below the window size, no
    word of the text is lost: each occurs in some chunk. *)
Theorem chunk_text_covers_every_word (text : string)
  (chunk_size overlap : Z) (chunks : list string) (w : string) :
  (0 <= overlap)%Z -> (overlap < chunk_size)%Z ->
  chunk_text text chunk_size overlap = Some chunks ->
  In w (split text) ->
  exists chunk, In chunk chunks /\ In w (split chunk).
Proof.
  intros Hov Hlt Hrun Hin.
  rewrite chunk_text_as_windows in Hrun by lia. injection Hrun as <-.
  apply In_nth_error in Hin as (j & Hj).
  assert (Hjlt : j < List.length (split text))
    by (apply nth_error_Some; congruence).
  set (step := (chunk_size - overlap)%Z) in *.
  assert (Hstep : (0 < step)%Z) by (subst step; lia).
  set (q := (Z.of_nat j / step)%Z).
  pose proof (Z.mul_div_le (Z.of_nat j) step Hstep) as Hq1.
  pose proof (Z.mul_succ_div_gt (Z.of_nat j) step Hstep) as Hq2.
  pose proof (Z.div_pos (Z.of_nat j) step) as Hq0.
  destruct (ceil_div_bounds (Z.of_nat (List.length (split text))) step)
    as (Hn0 & Hn1 & Hn2); [lia | lia |].
  fold q in Hq1, Hq2, Hq0.
  exists (join " " (slice (split text) (Z.of_nat (Z.to_nat q) * step)
                          (Z.of_nat (Z.to_nat q) * step + chunk_size))).
  split.
  - apply in_map_iff. exists (Z.to_nat q). split; [reflexivity|].
    apply in_seq. nia.
  - rewrite split_join_words
      by (apply Forall_slice, split_words).
    apply (nth_error_In _ (j - Z.to_nat (q * step))).
    rewrite Z2Nat.id by lia.
    rewrite nth_error_slice by nia.
    rewrite <- Hj. f_equal. nia.
Qed.

Lemma chunk_text_covers_every_word_witness :
  exists chunk,
    In chunk ["a b c"; "c d e"; "e"] /\ In "d" (split chunk).
Proof.
  apply (chunk_text_covers_every_word "a b c d e" 3 1
           ["a b c"; "c d e"; "e"] "d").
  - lia.
  - lia.
  - reflexivity.
  - vm_compute. auto.
Defined.

End MoreChunker.

(* ================================================================== *)
(** ** The keyword retriever, continued                                *)
(* ================================================================== *)

Section MoreRetriever.

Lemma StronglySorted_firstn {A : Type} (R : A -> A -> Prop) (l : list A)
  (n : nat) : StronglySorted R l -> StronglySorted R (firstn n l).
Proof.
  intros H. revert n. induction H as [|x l Hl IH Hx]; intros n.
  - rewrite firstn_nil. constructor.
  - destruct n; simpl; constructor; [apply IH|].
    rewrite Forall_forall in *. intros y Hy. apply Hx.
    rewrite <- (firstn_skipn n l). apply in_or_app. now left.
Qed.

Lemma StronglySorted_skipn {A : Type} (R : A -> A -> Prop) (l : list A)
  (n : nat) : StronglySorted R l -> StronglySorted R (skipn n l).
Proof.
  intros H. revert n. induction H as [|x l Hl IH Hx]; intros n.
  - rewrite skipn_nil. constructor.
  - destruct n; simpl; [now constructor | apply IH].
Qed.

Lemma StronglySorted_slice {A : Type} (R : A -> A -> Prop) (l : list A)
  (lo hi : Z) : StronglySorted R l -> StronglySorted R (slice l lo hi).
Proof.
  intros H. unfold slice.
  now apply StronglySorted_firstn, StronglySorted_skipn.
Qed.

Lemma score_chunks_indices_increase (query : string) (chunks : list string)
  (i : nat) :
  StronglySorted (fun x y => sc_index x < sc_index y)
                 (score_chunks query i chunks).
Proof.
  revert i. induction chunks as [|c rest IH]; intros i; simpl;
    [constructor|].
  destruct (0 <? chunk_score query c)%nat; [|apply IH].
  constructor; [apply IH|]. apply Forall_forall. intros r Hr.
  apply score_chunks_sound in Hr as (Hi & _). simpl. lia.
Qed.

Lemma insert_desc_ranks (x : Scored) (l : list Scored) :
  StronglySorted ranks_before l ->
  Forall (fun y => sc_index x < sc_index y) l ->
  StronglySorted ranks_before (insert_desc sc_score x l).
Proof.
  intros Hsorted. induction Hsorted as [|y r Hr IH Hy]; intros Hidx; simpl.
  - constructor; constructor.
  - inversion Hidx as [|? ? Hxy Hxr]; subst.
    destruct (Nat.leb_spec (sc_score y) (sc_score x)) as [Hle|Hgt].
    + constructor; [now constructor|].
      constructor.
      * unfold ranks_before. lia.
      * rewrite Forall_forall in *. intros z Hz.
        specialize (Hy z Hz). specialize (Hxr z Hz).
        unfold ranks_before in *. lia.
    + constructor; [now apply IH|].
      apply Forall_forall. intros z Hz.
      apply in_insert_desc in Hz as [->|Hz].
      * unfold ranks_before. lia.
      * rewrite Forall_forall in Hy. now apply Hy.
Qed.

Lemma sort_desc_ranks (l : list Scored) :
  StronglySorted (fun x y => sc_index x < sc_index y) l ->
  StronglySorted ranks_before (sort_desc sc_score l).
Proof.
  induction 1 as [|x l Hl IH Hx]; simpl; [constructor|].
  apply insert_desc_ranks; [assumption|].
  rewrite Forall_forall in *. intros y Hy. apply Hx.
  now apply in_sort_desc in Hy.
Qed.

Lemma insert_desc_perm {A : Type} (key : A -> nat) (x : A) (l : list A) :
  Permutation (insert_desc key x l) (x :: l).
Proof.
  induction l as [|y r IH]; simpl; [reflexivity|].
  destruct (key y <=? key x)%nat; [reflexivity|].
  rewrite IH. apply perm_swap.
Qed.

Lemma sort_desc_perm {A : Type} (key : A -> nat) (l : list A) :
  Permutation (sort_desc key l) l.
Proof.
  induction l as [|x l IH]; simpl; [reflexivity|].
  rewrite insert_desc_perm. now constructor.
Qed.

Lemma NoDup_map_slice {A B : Type} (f : A -> B) (l : list A) (lo hi : Z) :
  NoDup (map f l) -> NoDup (map f (slice l lo hi)).
Proof.
  intros H. unfold slice.
  set (n := Z.to_nat (clamp_index (Z.of_nat (List.length l)) lo)).
  set (m := Z.to_nat _).
  rewrite <- (firstn_skipn n l), map_app in H.
  apply NoDup_app_remove_l in H.
  rewrite <- (firstn_skipn m (skipn n l)), map_app in H.
  now apply NoDup_app_remove_r in H.
Qed.

(** X5: the results are ranked: every entry has a higher score than each entry
    after it, or the same score and an earlier place in the document; so no
    chunk is returned twice. *)
Theorem keyword_search_ranked_and_stable (query : string)
  (chunks : list string) (top_k : Z) :
  StronglySorted ranks_before (simple_keyword_search query chunks top_k)
  /\ NoDup (map sc_index (simple_keyword_search query chunks top_k)).
Proof.
  assert (Hranked : StronglySorted ranks_before
                      (simple_keyword_search query chunks top_k)).
  { unfold simple_keyword_search.
    apply StronglySorted_slice, sort_desc_ranks,
      score_chunks_indices_increase. }
  split; [exact Hranked|].
  unfold simple_keyword_search.
  apply NoDup_map_slice.
  apply (Permutation_NoDup
           (Permutation_map sc_index
              (Permutation_sym
                 (sort_desc_perm sc_score (score_chunks query 0 chunks))))).
  pose proof (score_chunks_indices_increase query chunks 0) as Hinc.
  induction Hinc as [|x l Hl IH Hx]; simpl; constructor; [|exact IH].
  intros Hin. apply in_map_iff in Hin as (y & Heq & Hy).
  rewrite Forall_forall in Hx. specialize (Hx y Hy). lia.
Qed.


Lemma keyword_search_count_helper (query : string) (chunks : list string) :
  List.length (simple_keyword_search query chunks 2)
  = Nat.min 2 (List.length (score_chunks query 0 chunks)).
Proof.
  unfold simple_keyword_search, slice, clamp_index.
  rewrite length_firstn, length_skipn, length_sort_desc.
  change (0 <? 0)%Z with false. change (2 <? 0)%Z with false. cbv iota.
  lia.
Qed.


Lemma score_chunks_ext (q1 q2 : string) (chunks : list string) (i : nat) :
  (forall chunk, chunk_score q1 chunk = chunk_score q2 chunk) ->
  score_chunks q1 i chunks = score_chunks q2 i chunks.
Proof.
  intros Heq. revert i. induction chunks as [|c rest IH]; intros i; simpl;
    [reflexivity|].
  now rewrite Heq, IH.
Qed.

(** X7: the search does not see letter case: lower-casing the query or a chunk
    changes no score, and lower-casing the query changes no result. *)
Theorem keyword_search_ignores_case (query : string) (chunks : list string)
  (top_k : Z) :
  (forall chunk, chunk_score (lower query) chunk = chunk_score query chunk)
  /\ (forall chunk, chunk_score query (lower chunk) = chunk_score query chunk)
  /\ simple_keyword_search (lower query) chunks top_k
     = simple_keyword_search query chunks top_k.
Proof.
  assert (Hq : forall chunk,
             chunk_score (lower query) chunk = chunk_score query chunk).
  { intros chunk. unfold chunk_score. now rewrite lower_idem. }
  split; [exact Hq|]. split.
  - intros chunk. unfold chunk_score. now rewrite lower_idem.
  - unfold simple_keyword_search.
    now rewrite (score_chunks_ext (lower query) query).
Qed.

Lemma score_chunks_empty_query (chunks : list string) (i : nat) :
  score_chunks EmptyString i chunks
  = map (fun p => mkScored (snd p) 5 (fst p))
        (combine (seq i (List.length chunks)) chunks).
Proof.
  assert (Hfive : forall c, chunk_score EmptyString c = 5).
  { intros c. unfold chunk_score. cbn [lower]. now rewrite in_str_empty. }
  revert i. induction chunks as [|c rest IH]; intros i; simpl;
    [reflexivity|].
  rewrite !Hfive. simpl. now rewrite IH.
Qed.

Lemma sort_desc_constant {A : Type} (key : A -> nat) (n : nat) (l : list A) :
  Forall (fun x => key x = n) l -> sort_desc key l = l.
Proof.
  induction 1 as [|x l Hx Hl IH]; simpl; [reflexivity|].
  rewrite IH. destruct l as [|y r]; [reflexivity|]. simpl.
  inversion Hl as [|? ? Hy _]; subst.
  destruct (Nat.leb_spec (key y) (key x)); [reflexivity | lia].
Qed.

(** X8: an empty query matches every chunk with the score 5: the search
    returns the first [top_k] chunks of the document, in their order. *)
Theorem keyword_search_empty_query (chunks : list string) (top_k : nat) :
  simple_keyword_search EmptyString chunks (Z.of_nat top_k)
  = firstn top_k
      (map (fun p => mkScored (snd p) 5 (fst p)) (enumerate chunks)).
Proof.
  unfold simple_keyword_search, enumerate.
  rewrite score_chunks_empty_query.
  rewrite (sort_desc_constant sc_score 5).
  - generalize (map (fun p : nat * string => mkScored (snd p) 5 (fst p))
                    (combine (seq 0 (List.length chunks)) chunks)).
    intros l. unfold slice, clamp_index.
    change (0 <? 0)%Z with false. cbv iota.
    destruct (Z.ltb_spec (Z.of_nat top_k) 0); [lia|].
    rewrite (Z.min_l 0) by lia. simpl skipn.
    destruct (Nat.le_gt_cases top_k (List.length l)) as [Hle|Hgt].
    + f_equal. lia.
    + rewrite !firstn_all2 by lia. reflexivity.
  - apply Forall_forall. intros r Hr.
    apply in_map_iff in Hr as (p & <- & _). reflexivity.
Qed.

End MoreRetriever.

(* ================================================================== *)
(** ** The context builder and the prompt, continued                   *)
(* ================================================================== *)

Section MoreContext.

Lemma insert_desc_descending {A : Type} (key : A -> nat) (x : A)
  (l : list A) :
  StronglySorted (fun a b => key b <= key a) l ->
  StronglySorted (fun a b => key b <= key a) (insert_desc key x l).
Proof.
  induction 1 as [|y r Hr IH Hy]; simpl.
  - constructor; constructor.
  - destruct (Nat.leb_spec (key y) (key x)) as [Hle|Hgt].
    + constructor; [now constructor|]. constructor; [assumption|].
      rewrite Forall_forall in *. intros z Hz. specialize (Hy z Hz). lia.
    + constructor; [assumption|]. apply Forall_forall. intros z Hz.
      apply in_insert_desc in Hz as [->|Hz]; [lia|].
      rewrite Forall_forall in Hy. now apply Hy.
Qed.

Lemma sort_desc_descending {A : Type} (key : A -> nat) (l : list A) :
  StronglySorted (fun a b => key b <= key a) (sort_desc key l).
Proof.
  induction l as [|x l IH]; simpl; [constructor|].
  now apply insert_desc_descending.
Qed.

Lemma all_relevant_chunks_sound (query : string) (documents : list Document)
  (c : Relevant) :
  In c (all_relevant_chunks query documents) ->
  exists doc, In doc documents
              /\ rel_document c = doc_name doc
              /\ In (rel_text c) (doc_chunks doc)
              /\ rel_score c = chunk_score query (rel_text c)
              /\ 0 < rel_score c.
Proof.
  induction documents as [|doc rest IH]; simpl; [contradiction|].
  intros Hin.
  assert (Hrest : In c (all_relevant_chunks query rest) ->
                  exists d, (doc = d \/ In d rest)
                            /\ rel_document c = doc_name d
                            /\ In (rel_text c) (doc_chunks d)
                            /\ rel_score c = chunk_score query (rel_text c)
                            /\ 0 < rel_score c).
  { intros H. destruct (IH H) as (d & Hd & Hrest). exists d. auto. }
  destruct (doc_chunks doc) as [|ch chs] eqn:Hchunks; [auto|].
  apply in_app_or in Hin as [Hin|Hin]; [|auto].
  apply in_map_iff in Hin as (item & <- & Hitem).
  apply simple_keyword_search_sound in Hitem as (Hn & Hs & Hp).
  exists doc. rewrite Hchunks. cbn [rel_document rel_text rel_score].
  split; [now left|]. split; [reflexivity|].
  split; [eapply nth_error_In; eassumption|]. auto.
Qed.

Lemma all_relevant_chunks_length (query : string)
  (documents : list Document) :
  List.length (all_relevant_chunks query documents)
  <= 2 * List.length documents.
Proof.
  induction documents as [|doc rest IH]; simpl; [lia|].
  destruct (doc_chunks doc) as [|ch chs]; [lia|].
  rewrite length_app, length_map.
  pose proof (length_slice_prefix
                (sort_desc sc_score (score_chunks query 0 (ch :: chs))) 2).
  unfold simple_keyword_search. change (Z.of_nat 2) with 2%Z in *. lia.
Qed.

(** X9: every entry of the context names a document of the list and quotes one
    of its chunks with that chunk's positive score; the entries are in
    descending order of score; and a document adds at most two entries to the
    pool they are chosen from. *)
Theorem top_chunks_quote_documents (query : string)
  (documents : list Document) :
  (forall c, In c (top_chunks query documents) ->
             exists doc, In doc documents
                         /\ rel_document c = doc_name doc
                         /\ In (rel_text c) (doc_chunks doc)
                         /\ rel_score c = chunk_score query (rel_text c)
                         /\ 0 < rel_score c)
  /\ StronglySorted (fun a b => rel_score b <= rel_score a)
                    (top_chunks query documents)
  /\ List.length (all_relevant_chunks query documents)
     <= 2 * List.length documents.
Proof.
  split; [|split].
  - intros c Hc. unfold top_chunks in Hc.
    apply in_slice, in_sort_desc in Hc.
    now apply all_relevant_chunks_sound.
  - apply StronglySorted_slice, sort_desc_descending.
  - apply all_relevant_chunks_length.
Qed.

Lemma simple_keyword_search_finds (query : string) (chunks : list string)
  (chunk : string) :
  In chunk chunks -> 0 < chunk_score query chunk ->
  simple_keyword_search query chunks 2 <> [].
Proof.
  intros Hin Hpos Hnil.
  apply In_nth_error in Hin as (i & Hi).
  pose proof (score_chunks_complete query chunks 0 i chunk Hi Hpos) as Hc.
  pose proof (keyword_search_count_helper query chunks) as Hlen.
  rewrite Hnil in Hlen. simpl in Hlen.
  destruct (score_chunks query 0 chunks); [contradiction | simpl in Hlen; lia].
Qed.

Lemma all_relevant_chunks_finds (query : string) (documents : list Document)
  (doc : Document) (chunk : string) :
  In doc documents -> In chunk (doc_chunks doc) ->
  0 < chunk_score query chunk ->
  all_relevant_chunks query documents <> [].
Proof.
  induction documents as [|d rest IH]; simpl; [contradiction|].
  intros [->|Hdoc] Hchunk Hpos.
  - destruct (doc_chunks doc) as [|ch chs] eqn:E; [contradiction|].
    pose proof (simple_keyword_search_finds query (ch :: chs) chunk
                  Hchunk Hpos) as Hne.
    destruct (simple_keyword_search query (ch :: chs) 2);
      [contradiction | discriminate].
  - specialize (IH Hdoc Hchunk Hpos).
    destruct (doc_chunks d); [assumption|].
    intros Happ. apply app_eq_nil in Happ as [_ Hnil]. contradiction.
Qed.

(** X10: the context is empty exactly when no chunk of any document has a
    positive score for the query. *)
Theorem build_context_empty_iff_no_match (query : string)
  (documents : list Document) :
  build_context_from_documents query documents = EmptyString
  <-> (forall doc chunk,
          In doc documents -> In chunk (doc_chunks doc) ->
          chunk_score query chunk = 0).
Proof.
  split.
  - intros Hempty doc chunk Hdoc Hchunk.
    destruct (chunk_score query chunk) as [|n] eqn:Hscore; [reflexivity|].
    exfalso.
    apply (all_relevant_chunks_finds query documents doc chunk Hdoc Hchunk);
      [lia|].
    unfold build_context_from_documents in Hempty.
    destruct documents as [|d ds]; [contradiction|].
    destruct (all_relevant_chunks query (d :: ds)); [reflexivity|].
    discriminate.
  - intros Hzero. unfold build_context_from_documents.
    rewrite all_relevant_chunks_no_match by assumption.
    now destruct documents.
Qed.

Lemma in_str_middle (pre s post : string) :
  in_str s (pre ++ s ++ post) = true.
Proof. apply in_str_spec. now exists pre, post. Qed.

Lemma length_append (s t : string) :
  String.length (s ++ t) = String.length s + String.length t.
Proof. induction s as [|c s IH]; simpl; [reflexivity | now rewrite IH]. Qed.

(** X11: the prompt that goes to the generation service always contains the
    user's question; it is the question itself when no chunk matches, and
    otherwise a longer text that also contains the context. *)
Theorem enhance_prompt_keeps_question (original_prompt : string)
  (documents : list Document) :
  in_str original_prompt (enhance_prompt_with_rag original_prompt documents)
  = true
  /\ ((forall doc chunk,
          In doc documents -> In chunk (doc_chunks doc) ->
          chunk_score original_prompt chunk = 0) ->
      enhance_prompt_with_rag original_prompt documents = original_prompt)
  /\ (build_context_from_documents original_prompt documents <> EmptyString ->
      in_str (build_context_from_documents original_prompt documents)
             (enhance_prompt_with_rag original_prompt documents) = true
      /\ String.length original_prompt
         < String.length
             (enhance_prompt_with_rag original_prompt documents)).
Proof.
  unfold enhance_prompt_with_rag.
  destruct documents as [|d ds].
  - split; [apply in_str_refl|]. split; [reflexivity|].
    intros H. now contradiction H.
  - set (context := build_context_from_documents original_prompt (d :: ds)).
    assert (Hzero : (forall doc chunk,
                        In doc (d :: ds) -> In chunk (doc_chunks doc) ->
                        chunk_score original_prompt chunk = 0) ->
                    context = EmptyString).
    { intros H. unfold context, build_context_from_documents.
      now rewrite all_relevant_chunks_no_match. }
    destruct context as [|c ctx] eqn:Hctx; cbn [truthy].
    + split; [apply in_str_refl|]. split; [reflexivity|].
      intros H. now contradiction H.
    + split; [|split].
      * apply in_str_spec.
        exists (nl ++ String c ctx ++ nl ++ nl ++ rag_question_line
                   ++ nl ++ nl)%string,
               (nl ++ nl ++ rag_instruction_line ++ nl)%string.
        now rewrite !append_assoc.
      * intros H. specialize (Hzero H). discriminate.
      * intros _. split.
        -- apply in_str_spec. exists nl. eexists. reflexivity.
        -- rewrite !length_append. unfold nl. simpl. lia.
Qed.

End MoreContext.

(* ================================================================== *)
(** ** The document uploader, continued                                *)
(* ================================================================== *)

Section MoreUploader.
Variables pdf csv txt : UploadedFile -> string.

Lemma process_new_file_shape (docs : list Document) (file : UploadedFile) :
  process_new_file pdf csv txt docs file = docs
  \/ exists doc,
      process_new_file pdf csv txt docs file = docs ++ [doc]
      /\ ~ In (file_name file) (names docs)
      /\ doc_name doc = file_name file
      /\ doc_content doc = extract_content pdf csv txt file
      /\ doc_type doc = file_type file
      /\ well_stored doc.
Proof.
  unfold process_new_file.
  destruct (any _ docs) eqn:Hany; [now left|].
  destruct (truthy _) eqn:Hcontent; [|now left].
  destruct (chunk_text _ 500 50) as [chunks|] eqn:Hchunks; [|now left].
  right. eexists. split; [reflexivity|]. split.
  - intros Hin. apply any_name_spec in Hin. congruence.
  - unfold well_stored. simpl. repeat split; auto.
Qed.

Lemma fold_process_appends (files : list UploadedFile)
  (docs : list Document) :
  exists added,
    fold_left (process_new_file pdf csv txt) files docs = docs ++ added
    /\ Forall (fun doc =>
                 well_stored doc
                 /\ ~ In (doc_name doc) (names docs)
                 /\ exists file, In file files
                                 /\ doc_name doc = file_name file
                                 /\ doc_content doc
                                    = extract_content pdf csv txt file
                                 /\ doc_type doc = file_type file)
              added.
Proof.
  revert docs. induction files as [|f fs IH]; intros docs; simpl.
  - exists []. now rewrite app_nil_r.
  - destruct (process_new_file_shape docs f)
      as [->|(doc & -> & Hnew & Hname & Hcontent & Htype & Hwell)].
    + destruct (IH docs) as (added & -> & Hadded). exists added.
      split; [reflexivity|]. eapply Forall_impl; [|exact Hadded].
      intros d (Hw & Hn & file & Hf & Hrest).
      split; [exact Hw|]. split; [exact Hn|].
      exists file. split; [now right | exact Hrest].
    + destruct (IH (docs ++ [doc])) as (added & -> & Hadded).
      exists (doc :: added). rewrite <- app_assoc. split; [reflexivity|].
      constructor.
      * split; [exact Hwell|]. split; [now rewrite Hname|].
        exists f. split; [now left | auto].
      * eapply Forall_impl; [|exact Hadded].
        intros d (Hw & Hn & file & Hf & Hrest).
        split; [exact Hw|]. split.
        -- intros Hin. apply Hn. unfold names. rewrite map_app.
           apply in_or_app. now left.
        -- exists file. split; [now right | exact Hrest].
Qed.

(** X12: a run of the page without "Clear All Documents" only appends: the
    documents stored before stay where and as they are, also when a file of
    the same name with other content is uploaded, and each new document holds
    the text of an uploaded file whose name was not stored. *)
Theorem uploads_only_append (session : option (list Document))
  (uploaded_files : list UploadedFile) :
  exists added,
    stored (nutrition_document_uploader pdf csv txt session uploaded_files
                                        false)
    = stored session ++ added
    /\ Forall (fun doc =>
                 ~ In (doc_name doc) (names (stored session))
                 /\ exists file, In file uploaded_files
                                 /\ doc_name doc = file_name file
                                 /\ doc_content doc
                                    = extract_content pdf csv txt file
                                 /\ doc_type doc = file_type file)
              added.
Proof.
  unfold nutrition_document_uploader.
  destruct uploaded_files as [|f fs].
  - exists []. now rewrite app_nil_r.
  - destruct (fold_process_appends (f :: fs) (stored session))
      as (added & Heq & Hadded).
    exists added. split; [exact Heq|].
    eapply Forall_impl; [|exact Hadded]. intros d (_ & Hn & Hfile). auto.
Qed.

Lemma uploader_well_stored (session : option (list Document))
  (files : list UploadedFile) (clear : bool) :
  Forall well_stored (stored session) ->
  Forall well_stored
         (stored (nutrition_document_uploader pdf csv txt session files
                                              clear)).
Proof.
  intros Hall. unfold nutrition_document_uploader.
  destruct files as [|f fs]; [assumption|].
  destruct clear; [constructor|].
  destruct (fold_process_appends (f :: fs) (stored session))
    as (added & Heq & Hadded).
  change (Forall well_stored
            (fold_left (process_new_file pdf csv txt) (f :: fs)
                       (stored session))).
  rewrite Heq. apply Forall_app. split; [assumption|].
  eapply Forall_impl; [|exact Hadded]. now intros d (Hw & _).
Qed.

(** X13: however the page is run from an empty session, every stored document
    has a text that is not empty, the chunks of that text at the window of 500
    words with 50 of overlap, and the length of the text as its size. *)
Theorem stored_documents_are_well_formed
  (runs : list (list UploadedFile * bool)) :
  Forall well_stored (stored (run_uploads pdf csv txt None runs)).
Proof.
  unfold run_uploads.
  assert (H : forall s, Forall well_stored (stored s) ->
            Forall well_stored
              (stored (fold_left
                         (fun s r => nutrition_document_uploader
                                       pdf csv txt s (fst r) (snd r))
                         runs s))).
  { induction runs as [|r rs IH]; intros s Hs; simpl; [assumption|].
    apply IH. now apply uploader_well_stored. }
  apply H. constructor.
Qed.

End MoreUploader.

(* ================================================================== *)
(** ** The nutrition estimator, continued                              *)
(* ================================================================== *)

Section MoreEstimator.

Lemma multiplier_cases (food_lower quantity : string) :
  multiplier_of food_lower quantity = 2%Q
  \/ multiplier_of food_lower quantity = 3%Q
  \/ multiplier_of food_lower quantity = 0.5%Q
  \/ multiplier_of food_lower quantity = 1%Q.
Proof.
  unfold multiplier_of.
  destruct (_ || _); [now left|].
  destruct (_ || _); [now right; left|].
  destruct (_ || _); [now right; right; left | now right; right; right].
Qed.

Lemma estimated_cases (food_lower : string) :
  In (estimated_nutrition food_lower)
     [mkBaseline 200 25.0 2.0 8.0; mkBaseline 80 1.0 20.0 0.5;
      mkBaseline 30 2.0 6.0 0.3; mkBaseline 180 6.0 35.0 2.0;
      mkBaseline 150 8.0 20.0 5.0]%Q.
Proof.
  unfold estimated_nutrition. cbv zeta.
  destruct (any _ _); [now left|].
  destruct (any _ _); [now right; left|].
  destruct (any _ _); [now right; right; left|].
  destruct (any _ _); [now right; right; right; left|].
  now right; right; right; right; left.
Qed.

Lemma calories_in_range_everywhere (multiplier : Q) (nutrition : Baseline) :
  In multiplier [2%Q; 3%Q; 0.5%Q; 1%Q] ->
  In nutrition
     (map snd food_db
        ++ [mkBaseline 200 25.0 2.0 8.0; mkBaseline 80 1.0 20.0 0.5;
            mkBaseline 30 2.0 6.0 0.3; mkBaseline 180 6.0 35.0 2.0;
            mkBaseline 150 8.0 20.0 5.0]%Q) ->
  calories_in_range multiplier nutrition = true.
Proof.
  intros Hm Hn.
  assert (Hall : forallb
                   (fun m =>
                      forallb (calories_in_range m)
                        (map snd food_db
                           ++ [mkBaseline 200 25.0 2.0 8.0;
                               mkBaseline 80 1.0 20.0 0.5;
                               mkBaseline 30 2.0 6.0 0.3;
                               mkBaseline 180 6.0 35.0 2.0;
                               mkBaseline 150 8.0 20.0 5.0]%Q))
                   [2%Q; 3%Q; 0.5%Q; 1%Q] = true) by (vm_compute; reflexivity).
  rewrite forallb_forall in Hall. specialize (Hall multiplier Hm).
  rewrite forallb_forall in Hall. now apply Hall.
Qed.

(** X14: without an answer of the service the result repeats the description
    and the quantity, reports success exactly when it comes from the local
    table, and its calories lie between 2 and 1137 whatever the texts are. *)
Theorem local_estimate_is_bounded (food_item quantity : string) :
  ne_food (calculate_nutrition None food_item quantity) = food_item
  /\ ne_quantity (calculate_nutrition None food_item quantity) = quantity
  /\ (ne_success (calculate_nutrition None food_item quantity) = true
      <-> ne_source (calculate_nutrition None food_item quantity)
          = "Local Database")
  /\ (2 <= ne_calories (calculate_nutrition None food_item quantity)
      <= 1137)%Z.
Proof.
  unfold calculate_nutrition.
  pose proof (multiplier_cases (lower food_item) quantity) as Hm.
  assert (Hmul : In (multiplier_of (lower food_item) quantity)
                    [2%Q; 3%Q; 0.5%Q; 1%Q]).
  { simpl. destruct Hm as [->|[->|[->| ->]]]; auto. }
  assert (Hrange : forall n,
             calories_in_range (multiplier_of (lower food_item) quantity) n
             = true ->
             (2 <= py_round (b_calories n
                             * multiplier_of (lower food_item) quantity)
              <= 1137)%Z).
  { intros n H. unfold calories_in_range in H.
    apply andb_true_iff in H as [H1 H2]. lia. }
  destruct (find _ food_db) as [[key nutrition]|] eqn:Hfind; cbn.
  - repeat split; try discriminate; apply Hrange;
      apply calories_in_range_everywhere; try assumption;
      apply in_or_app; left; apply find_some in Hfind as [Hin _];
      apply in_map_iff; now exists (key, nutrition).
  - repeat split; try discriminate; apply Hrange;
      apply calories_in_range_everywhere; try assumption;
      apply in_or_app; right; apply estimated_cases.
Qed.

Lemma table_key_absent (food_lower key : string) :
  find (fun entry => in_str (fst entry) food_lower) food_db = None ->
  existsb (String.eqb key) (map fst food_db) = true ->
  in_str key food_lower = false.
Proof.
  intros Hfind Hkey.
  apply existsb_exists in Hkey as (k & Hk & Heq).
  apply String.eqb_eq in Heq. subst k.
  apply in_map_iff in Hk as (entry & <- & Hentry).
  exact (find_none _ _ Hfind entry Hentry).
Qed.

(** X15: when the description matches no entry of the table, it contains none
    of the table's foods, so of the category words only "meat", "fruit",
    "berry", "vegetable" and "grain" can decide the estimate. *)
Theorem estimate_decided_by_category_words (food_item quantity : string) :
  ne_source (calculate_nutrition None food_item quantity) = "Estimated" ->
  ne_success (calculate_nutrition None food_item quantity) = false
  /\ estimated_nutrition (lower food_item)
     = (if in_str "meat" (lower food_item)
        then mkBaseline 200 25.0 2.0 8.0
        else if in_str "fruit" (lower food_item)
                || in_str "berry" (lower food_item)
        then mkBaseline 80 1.0 20.0 0.5
        else if in_str "vegetable" (lower food_item)
        then mkBaseline 30 2.0 6.0 0.3
        else if in_str "grain" (lower food_item)
        then mkBaseline 180 6.0 35.0 2.0
        else mkBaseline 150 8.0 20.0 5.0)%Q.
Proof.
  unfold calculate_nutrition.
  destruct (find _ food_db) as [[key nutrition]|] eqn:Hfind; cbn;
    [discriminate|].
  intros _. split; [reflexivity|].
  pose proof (table_key_absent (lower food_item)) as Habsent.
  specialize (fun key => Habsent key Hfind).
  unfold estimated_nutrition, any. cbn [existsb].
  rewrite (Habsent "chicken"), (Habsent "beef"), (Habsent "pork"),
    (Habsent "fish"), (Habsent "apple"), (Habsent "orange"),
    (Habsent "broccoli"), (Habsent "carrot"), (Habsent "spinach"),
    (Habsent "bread"), (Habsent "pasta"), (Habsent "rice")
    by reflexivity.
  cbn [orb]. rewrite !orb_false_r. reflexivity.
Qed.

Lemma estimate_decided_by_category_words_witness :
  estimated_nutrition (lower "Mixed berry bowl") = mkBaseline 80 1.0 20.0 0.5.
Proof.
  destruct (estimate_decided_by_category_words "Mixed berry bowl" "1 serving")
    as (_ & Hest); [reflexivity|].
  rewrite Hest. reflexivity.
Defined.

End MoreEstimator.

(* ================================================================== *)
(** ** The safety filter and the recipe filter, continued              *)
(* ================================================================== *)

Section MoreFilters.

Lemma pattern_stage (text : string) :
  snd (check_nutrition_safety None text)
  = filter (fun pattern => in_str pattern (lower text)) unsafe_patterns.
Proof.
  unfold check_nutrition_safety. cbn [snd].
  now rewrite check_unpreferred_fold.
Qed.

Lemma verdict_is_nil (backend : option Classifiers) (text : string) :
  fst (check_nutrition_safety backend text)
  = is_nil (snd (check_nutrition_safety backend text)).
Proof.
  unfold check_nutrition_safety. cbn [fst snd].
  match goal with
  | |- context [(List.length ?f =? 0)%nat] => generalize f
  end.
  now intros [|x l].
Qed.

(** X16: without the classifiers the flagged terms are the patterns of the
    catalogue that occur in the lower-cased text, in the order of the
    catalogue, and the letter case of the text changes nothing. *)
Theorem safety_flags_are_the_occurring_patterns (text : string) :
  snd (check_nutrition_safety None text)
  = filter (fun pattern => in_str pattern (lower text)) unsafe_patterns
  /\ (forall pattern,
         In pattern (snd (check_nutrition_safety None text))
         <-> In pattern unsafe_patterns
             /\ in_str pattern (lower text) = true)
  /\ check_nutrition_safety None (lower text)
     = check_nutrition_safety None text.
Proof.
  split; [apply pattern_stage|]. split.
  - intros pattern. rewrite pattern_stage, filter_In. reflexivity.
  - unfold check_nutrition_safety. now rewrite lower_idem.
Qed.

Lemma incl_markers (extra : list string) :
  In extra [[]; ["AI-detected toxic content"];
            ["AI-detected harmful body/food negativity"];
            ["AI-detected toxic content";
             "AI-detected harmful body/food negativity"]] ->
  incl extra ["AI-detected toxic content";
              "AI-detected harmful body/food negativity"].
Proof.
  intros [<-|[<-|[<-|[<-|[]]]]] x Hx; cbn [In] in *; tauto.
Qed.

Lemma safety_classifiers_extend (backend : option Classifiers)
  (text : string) :
  exists extra,
    snd (check_nutrition_safety backend text)
    = snd (check_nutrition_safety None text) ++ extra
    /\ In extra [[]; ["AI-detected toxic content"];
                 ["AI-detected harmful body/food negativity"];
                 ["AI-detected toxic content";
                  "AI-detected harmful body/food negativity"]]
    /\ (String.length (strip text) <= 10 -> extra = []).
Proof.
  unfold check_nutrition_safety. cbn [snd].
  generalize (fold_left
                (fun flagged pattern =>
                   if in_str pattern (lower text) then flagged ++ [pattern]
                   else flagged)
                unsafe_patterns []).
  intros flagged.
  destruct backend as [cl|].
  2: { exists []. rewrite app_nil_r. cbn [In]. auto. }
  destruct (Nat.ltb_spec 10 (String.length (strip text))) as [Hlong|Hshort].
  2: { exists []. rewrite app_nil_r. cbn [In]. auto. }
  destruct (toxicity_check cl text) as [[|]|];
    destruct (sentiment_check cl text (lower text)) as [[|]|];
    rewrite <- ?app_assoc; cbn [app].
  all: first
    [ exists ["AI-detected toxic content";
              "AI-detected harmful body/food negativity"];
      split; [reflexivity|]
    | exists ["AI-detected toxic content"]; split; [reflexivity|]
    | exists ["AI-detected harmful body/food negativity"];
      split; [reflexivity|]
    | exists []; split; [now rewrite app_nil_r|] ].
  all: split; [cbn [In]; tauto | intros; lia].
Qed.

(** X17: the classifiers can only add their two markers after the flagged
    patterns: they never clear a pattern, are not asked about a text of at
    most ten characters, and a text that is safe with them is safe without
    them. *)
Theorem safety_classifiers_only_add (backend : option Classifiers)
  (text : string) :
  exists extra,
    snd (check_nutrition_safety backend text)
    = snd (check_nutrition_safety None text) ++ extra
    /\ incl extra ["AI-detected toxic content";
                   "AI-detected harmful body/food negativity"]
    /\ (String.length (strip text) <= 10 -> extra = [])
    /\ (fst (check_nutrition_safety backend text) = true ->
        fst (check_nutrition_safety None text) = true).
Proof.
  destruct (safety_classifiers_extend backend text)
    as (extra & Heq & Hin & Hshort).
  exists extra. split; [exact Heq|]. split; [now apply incl_markers|].
  split; [exact Hshort|].
  rewrite !verdict_is_nil, Heq.
  now destruct (snd (check_nutrition_safety None text)).
Qed.

(** X18: a text that is flagged without the classifiers stays flagged inside
    any longer text, with or without the classifiers: words around it do not
    hide it. *)
Theorem safety_flags_survive_embedding (backend : option Classifiers)
  (inner text : string) :
  in_str inner text = true ->
  incl (snd (check_nutrition_safety None inner))
       (snd (check_nutrition_safety backend text))
  /\ (fst (check_nutrition_safety None inner) = false ->
      fst (check_nutrition_safety backend text) = false).
Proof.
  intros Hin.
  assert (Hincl : incl (snd (check_nutrition_safety None inner))
                       (snd (check_nutrition_safety backend text))).
  { destruct (safety_classifiers_extend backend text) as (extra & -> & _).
    intros pattern Hp. apply in_or_app. left.
    rewrite pattern_stage in *. apply filter_In in Hp as [Hcat Hocc].
    apply filter_In. split; [assumption|].
    apply (in_str_trans _ (lower inner)); [assumption|].
    now apply in_str_lower. }
  split; [exact Hincl|].
  rewrite !verdict_is_nil.
  destruct (snd (check_nutrition_safety None inner)) as [|p ps];
    [discriminate|].
  intros _. specialize (Hincl p (or_introl eq_refl)).
  now destruct (snd (check_nutrition_safety backend text)).
Qed.

Lemma safety_flags_survive_embedding_witness :
  fst (check_nutrition_safety None "for my skills I need a detox tea plan")
  = false.
Proof.
  destruct (safety_flags_survive_embedding None "detox tea"
              "for my skills I need a detox tea plan" eq_refl) as (_ & H).
  apply H. reflexivity.
Defined.

Lemma is_nil_filter {A : Type} (p : A -> bool) (l : list A) :
  is_nil (filter p l) = forallb (fun x => negb (p x)) l.
Proof.
  induction l as [|x l IH]; simpl; [reflexivity|].
  destruct (p x); simpl; [reflexivity | exact IH].
Qed.

(** X19: the recipe is reported safe exactly when no allergy of the profile
    occurs in its lower-cased text: the unpreferred foods never decide, and
    the letter case of the recipe changes neither the verdict nor the
    warnings. *)
Theorem recipe_verdict_depends_on_allergies_only
  (recipe_text user_allergies_str : string)
  (unpreferred_foods_list : list string) :
  fst (fst (filter_recipe_for_user_safety recipe_text user_allergies_str
                                          unpreferred_foods_list))
  = forallb (fun allergy => negb (in_str allergy (lower recipe_text)))
            (parse_allergies user_allergies_str)
  /\ fst (fst (filter_recipe_for_user_safety (lower recipe_text)
                 user_allergies_str unpreferred_foods_list))
     = fst (fst (filter_recipe_for_user_safety recipe_text
                   user_allergies_str unpreferred_foods_list))
  /\ snd (filter_recipe_for_user_safety (lower recipe_text)
            user_allergies_str unpreferred_foods_list)
     = snd (filter_recipe_for_user_safety recipe_text
              user_allergies_str unpreferred_foods_list)
  /\ List.length (snd (filter_recipe_for_user_safety recipe_text
                         user_allergies_str unpreferred_foods_list)) <= 2.
Proof.
  unfold filter_recipe_for_user_safety.
  rewrite lower_idem, !check_allergens_spec, !check_unpreferred_spec.
  cbn [fst snd]. rewrite is_nil_filter.
  repeat split.
  destruct (filter _ (parse_allergies user_allergies_str));
    destruct (filter _ (map _ unpreferred_foods_list)); simpl; lia.
Qed.

End MoreFilters.

(* ================================================================== *)
(** ** The request handler, continued                                  *)
(* ================================================================== *)

Section MoreHandler.
Variable extract_nutrition_data : string -> Extracted.
Variable w : World.
Variable a : Args.

Lemma steady_refl (fr : option NutritionEstimate) (s : Session) :
  steady a fr s s.
Proof.
  unfold steady. repeat split; try (exists []; now rewrite app_nil_r).
Qed.

Lemma steady_trans (fr : option NutritionEstimate) (s1 s2 s3 : Session) :
  steady a fr s1 s2 -> steady a fr s2 s3 -> steady a fr s1 s3.
Proof.
  intros (Hp & (c & Hc) & (n & Hn) & (m & Hm) & Hoff & Hnone)
         (Hp' & (c' & Hc') & (n' & Hn') & (m' & Hm') & Hoff' & Hnone').
  unfold steady. repeat split.
  - congruence.
  - exists (c ++ c'). now rewrite Hc', Hc, app_assoc.
  - exists (n ++ n'). now rewrite Hn', Hn, app_assoc.
  - exists (m ++ m'). now rewrite Hm', Hm, app_assoc.
  - intros H. rewrite Hoff', Hoff; auto.
  - intros H. rewrite Hnone', Hnone; auto.
Qed.

Lemma stays_pure {A : Type} (fr : option NutritionEstimate) (m : M A) :
  (forall s, snd (m s) = s) -> stays_steady a fr m.
Proof. intros H s. rewrite H. apply steady_refl. Qed.

Lemma stays_bind {A B : Type} (fr : option NutritionEstimate) (m : M A)
  (k : A -> M B) :
  stays_steady a fr m -> (forall x, stays_steady a fr (k x)) ->
  stays_steady a fr (bind m k).
Proof.
  intros Hm Hk s. unfold bind. specialize (Hm s).
  destruct (m s) as [[x|] s1]; simpl in *; [|assumption].
  eapply steady_trans; [exact Hm | apply Hk].
Qed.

Lemma stays_modify (fr : option NutritionEstimate)
  (f : Session -> Session) :
  (forall s, steady a fr s (f s)) -> stays_steady a fr (modify f).
Proof. intros H s. apply H. Qed.

Lemma steady_latest (fr : option NutritionEstimate) (t : string)
  (s : Session) : steady a fr s (set_latest_ai_response t s).
Proof.
  unfold steady. cbn.
  repeat split; try (exists []; now rewrite app_nil_r).
Qed.

Lemma steady_clear (fr : option NutritionEstimate) (b : bool)
  (s : Session) : steady a fr s (set_clear_image b s).
Proof.
  unfold steady. cbn.
  repeat split; try (exists []; now rewrite app_nil_r).
Qed.

Lemma steady_chat (fr : option NutritionEstimate) (e : ChatEntry)
  (s : Session) : steady a fr s (append_chat e s).
Proof.
  unfold steady. cbn.
  repeat split; try (exists []; now rewrite app_nil_r). now exists [e].
Qed.

Lemma request_body_steady (fr : option NutritionEstimate) :
  stays_steady a fr (request_body extract_nutrition_data w a fr).
Proof.
  unfold request_body.
  apply stays_bind.
  { destruct (uploaded_image_data a); now apply stays_pure. }
  intros _. apply stays_bind.
  { destruct (enable_streaming a).
    - unfold streaming_answer.
      destruct (generate_nutrition_response _); [|now apply stays_pure].
      apply stays_bind; [now apply stays_pure|]. intros t.
      apply stays_bind; [now apply stays_pure|]. intros p.
      apply stays_bind; [|intros; now apply stays_pure].
      destruct (mentions _ _);
        [destruct (filter_recipe_for_user_safety _ _ _)
           as [[safe filtered] warns]|];
        apply stays_modify; intros s; apply steady_latest.
    - unfold plain_answer.
      destruct (generate_nutrition_response _); [|now apply stays_pure].
      apply stays_bind; [now apply stays_pure|]. intros t.
      apply stays_bind; [|intros; now apply stays_pure].
      apply stays_modify. intros s. apply steady_latest. }
  intros response_text. apply stays_bind.
  { unfold recipe_filtering. destruct (_ && _); now apply stays_pure. }
  intros _. apply stays_bind.
  { destruct fr as [r|]; [|now apply stays_pure].
    apply stays_modify. intros s. unfold steady. cbn.
    repeat split; try (exists []; now rewrite app_nil_r);
      try (intros H; discriminate H). now exists [r]. }
  intros _. apply stays_bind.
  { apply stays_modify. intros s. apply steady_chat. }
  intros _. apply stays_bind.
  { unfold meal_logging.
    destruct (enable_meal_logging a) eqn:Hlog; cbn [andb];
      [|now apply stays_pure].
    destruct (_ || _); [|now apply stays_pure].
    apply stays_modify. intros s. unfold steady. cbn.
    repeat split; try (exists []; now rewrite app_nil_r);
      try (intros H; congruence). eexists; reflexivity. }
  intros _. apply stays_bind.
  { apply stays_pure. intros s. unfold token_usage.
    destruct (has_response w a); [|reflexivity].
    now destruct (usage_metadata w). }
  intros _.
  destruct (_ && _); [|now apply stays_pure].
  apply stays_modify. intros s. apply steady_clear.
Qed.

(** X20: a request leaves the profile alone and only appends to the chat
    history, the nutrition log and the meal log; the meal log stays as it is
    when meal logging is off, and the nutrition log when the calculator gave
    no result; a blocked prompt changes nothing but the chat history. *)
Theorem request_only_appends_to_logs (s : Session) :
  steady a (function_calling w a) s
         (snd (process_nutrition_request extract_nutrition_data w a s))
  /\ (fst (check_nutrition_safety (backend w) (prompt_to_use a)) = false ->
      process_nutrition_request extract_nutrition_data w a s
      = (Ok tt, append_chat (chat_entry w a flagged_response None NoData) s)).
Proof.
  unfold process_nutrition_request.
  destruct (check_nutrition_safety (backend w) (prompt_to_use a))
    as [is_safe flagged_terms].
  cbn [fst]. destruct is_safe; cbn [negb].
  - split; [|discriminate]. unfold try_except.
    pose proof (request_body_steady (function_calling w a) s) as Hbody.
    destruct (request_body _ _ _ _ s) as [[[]|] s1]; cbn [snd] in *;
      [exact Hbody|].
    eapply steady_trans; [exact Hbody | apply steady_chat].
  - split; [apply steady_chat | reflexivity].
Qed.

End MoreHandler.

Section MoreHandlerAnswers.

Lemma mentions_recipe_truthy (text : string) :
  mentions recipe_keywords text = true -> truthy text = true.
Proof. destruct text; [discriminate | reflexivity]. Qed.

(** X21: an answer that contains "recipe", "ingredients", "meal plan",
    "breakfast", "lunch" or "dinner" is never stored: the request runs into
    the call with the missing arguments, and the chat history receives the
    apology, while the nutrition log and the meal log stay as they are. *)
Theorem answer_mentioning_recipe_is_replaced
  (extract_nutrition_data : string -> Extracted) (w : World) (a : Args)
  (s : Session) (text : string) :
  fst (check_nutrition_safety (backend w) (prompt_to_use a)) = true ->
  (uploaded_image_data a = true -> exists bytes, read_image w = Ok bytes) ->
  (enable_streaming a = false /\ generate_text w = Ok (Ok text)
   \/ enable_streaming a = true
      /\ exists chunks, generate_stream w = Ok chunks
                        /\ read_stream chunks EmptyString = Ok text) ->
  mentions recipe_keywords text = true ->
  chat_history (snd (process_nutrition_request extract_nutrition_data w a s))
  = chat_history s ++ [chat_entry w a apology_text None NoData]
  /\ nutrition_data
       (snd (process_nutrition_request extract_nutrition_data w a s))
     = nutrition_data s
  /\ meal_log (snd (process_nutrition_request extract_nutrition_data w a s))
     = meal_log s.
Proof.
  intros Hsafe Himage Hanswer Hrecipe.
  pose proof (mentions_recipe_truthy text Hrecipe) as Htruthy.
  unfold process_nutrition_request.
  destruct (check_nutrition_safety (backend w) (prompt_to_use a))
    as [is_safe flagged_terms].
  cbn [fst] in Hsafe. subst is_safe. cbn [negb].
  unfold try_except, request_body.
  assert (Himg : forall k : string -> M unit,
             bind (if uploaded_image_data a then lift (read_image w)
                   else ret EmptyString) k s
             = k (match read_image w with
                  | Ok b => if uploaded_image_data a then b else EmptyString
                  | Raise => EmptyString
                  end) s).
  { intros k. unfold bind. destruct (uploaded_image_data a).
    - destruct (Himage eq_refl) as (bytes & ->). reflexivity.
    - cbn. now destruct (read_image w). }
  rewrite Himg. clear Himg.
  destruct Hanswer as [(Hplain & Hgen)|(Hstream & chunks & Hgen & Hread)].
  - rewrite Hplain. unfold plain_answer. rewrite Hgen.
    cbn [generate_nutrition_response]. unfold bind, lift, modify, ret.
    unfold recipe_filtering. rewrite Htruthy, Hrecipe. cbn.
    repeat split.
  - rewrite Hstream. unfold streaming_answer. rewrite Hgen.
    cbn [generate_nutrition_response].
    unfold bind, lift, gets, modify, ret, recipe_filtering.
    rewrite Hread. cbv beta iota. rewrite Hrecipe.
    destruct (filter_recipe_for_user_safety text
                (allergies (user_profile s))
                (unpreferred_foods (user_profile s)))
      as [[safe filtered] warns].
    cbv beta iota. rewrite Htruthy, Hrecipe. cbn. repeat split.
Qed.

Lemma answer_mentioning_recipe_is_replaced_witness :
  map ce_response
      (chat_history
         (snd (process_nutrition_request no_extraction
                 (offline_world Raise (Ok (Ok "Oats for breakfast.")))
                 (text_question "what should I eat" false) fresh_session)))
  = ["Sorry, there was an issue processing your request. Please try again."].
Proof.
  destruct (answer_mentioning_recipe_is_replaced no_extraction
              (offline_world Raise (Ok (Ok "Oats for breakfast.")))
              (text_question "what should I eat" false) fresh_session
              "Oats for breakfast.") as (Hchat & _).
  - reflexivity.
  - discriminate.
  - left. split; reflexivity.
  - reflexivity.
  - rewrite Hchat. reflexivity.
Defined.

Lemma filter_first {A : Type} (f : A -> bool) (l : list A) (x : A)
  (rest : list A) :
  filter f l = x :: rest ->
  exists before after,
    l = before ++ x :: after
    /\ Forall (fun y => f y = false) before
    /\ f x = true.
Proof.
  induction l as [|y l IH]; simpl; [discriminate|].
  destruct (f y) eqn:Hy.
  - intros H. injection H as -> _. exists [], l. auto.
  - intros H. destruct (IH H) as (before & after & -> & Hnone & Hx).
    exists (y :: before), after. auto.
Qed.

(** X22: when the calculator runs, the service gives nothing and the prompt
    names foods of the keyword list, the result is the local table's entry for
    the first such keyword in the order of the list (no keyword before it
    occurs in the prompt), for one serving: amounts written in the prompt play
    no part. *)
Theorem calculator_reports_one_serving (w : World) (a : Args)
  (named : string) :
  enable_nutrition_calculator a = true ->
  (forall food quantity, get_edamam_nutrition w food quantity = None) ->
  String.eqb (request_type a) "image"
  || mentions nutrition_question_keywords (prompt_to_use a) = true ->
  In named calculator_food_keywords ->
  in_str named (lower (prompt_to_use a)) = true ->
  exists before food after,
    calculator_food_keywords = before ++ food :: after
    /\ Forall (fun keyword => in_str keyword (lower (prompt_to_use a)) = false)
              before
    /\ In food calculator_food_keywords
    /\ in_str food (lower (prompt_to_use a)) = true
    /\ function_calling w a
       = Some (calculate_nutrition None food "1 serving")
    /\ ne_source (calculate_nutrition None food "1 serving")
       = "Local Database"
    /\ (multiplier_of (lower food) "1 serving" == 1)%Q.
Proof.
  intros Hon Hapi Hcalc Hnamed Hocc.
  unfold function_calling. rewrite Hon, Hcalc.
  assert (Hfound : In named
                     (filter (fun food =>
                                in_str food (lower (prompt_to_use a)))
                             calculator_food_keywords))
    by (apply filter_In; auto).
  destruct (filter _ calculator_food_keywords) as [|food others] eqn:Hfilter;
    [contradiction|].
  assert (Hfood : In food (filter (fun food =>
                                     in_str food (lower (prompt_to_use a)))
                                  calculator_food_keywords))
    by (rewrite Hfilter; now left).
  apply filter_In in Hfood as [Hkey Hin].
  assert (Hall : forallb
                   (fun k =>
                      String.eqb
                        (strip (replace "nutrition info for" ""
                                  (replace "calories in" ""
                                     (replace
                                        "what are the nutrition facts for"
                                        "" k)))) k
                      && String.eqb
                           (ne_source (calculate_nutrition None k "1 serving"))
                           "Local Database"
                      && Qeq_bool (multiplier_of (lower k) "1 serving") 1)
                   calculator_food_keywords = true)
    by (vm_compute; reflexivity).
  rewrite forallb_forall in Hall. specialize (Hall food Hkey).
  apply andb_true_iff in Hall as [Hall Hmul].
  apply andb_true_iff in Hall as [Hclean Hsource].
  apply String.eqb_eq in Hclean, Hsource. apply Qeq_bool_iff in Hmul.
  destruct (filter_first _ _ _ _ Hfilter) as (before & after & Hlist & Hnone & _).
  exists before, food, after. rewrite Hclean, Hapi. auto 8.
Qed.

Lemma calculator_reports_one_serving_witness :
  exists food,
    function_calling (offline_world Raise Raise)
                     (text_question "calories in 2 eggs on toast" false)
    = Some (calculate_nutrition None food "1 serving")
    /\ ne_source (calculate_nutrition None food "1 serving")
       = "Local Database".
Proof.
  destruct (calculator_reports_one_serving (offline_world Raise Raise)
              (text_question "calories in 2 eggs on toast" false) "toast")
    as (before & food & after & _ & _ & Hkey & Hin & Hresult & Hsource & _).
  - reflexivity.
  - reflexivity.
  - reflexivity.
  - vm_compute. auto.
  - reflexivity.
  - exists food. split; [exact Hresult | exact Hsource].
Defined.

(** X23: reading a streamed answer raises exactly when one of its chunks does,
    and otherwise gives the texts of the chunks in their order. *)
Theorem read_stream_collects_the_texts (chunks : list StreamChunk)
  (response_text : string) :
  (In ChunkRaises chunks -> read_stream chunks response_text = Raise)
  /\ (~ In ChunkRaises chunks ->
      read_stream chunks response_text
      = Ok (response_text ++ stream_text chunks)%string).
Proof.
  revert response_text. induction chunks as [|c rest IH]; intros acc.
  - split; [contradiction|]. intros _. simpl. now rewrite append_nil_r.
  - destruct (IH acc) as (Hr & Hok). destruct c as [t| |]; simpl.
    + destruct (IH (acc ++ t)%string) as (Hr' & Hok'). split.
      * intros [H|H]; [discriminate | auto].
      * intros H. rewrite Hok' by tauto. now rewrite append_assoc.
    + split; [intros [H|H]; [discriminate | auto] | intros H; apply Hok; tauto].
    + split; [reflexivity | intros H; exfalso; apply H; now left].
Qed.

Lemma length_substring_prefix (n : nat) (t : string) :
  String.length (String.substring 0 n t) = Nat.min n (String.length t).
Proof.
  revert n. induction t as [|c t IH]; intros [|n]; simpl; try reflexivity.
  now rewrite IH.
Qed.

(** [t[:n] + "..."] has at most [n + 3] characters, and a text of at most [n]
    characters is kept. *)
Lemma shorten_bounds (n : nat) (t : string) :
  String.length (shorten n t) <= n + 3
  /\ (String.length t <= n -> shorten n t = t)
  /\ (n < String.length t ->
      shorten n t = (String.substring 0 n t ++ "...")%string
      /\ String.length (shorten n t) = n + 3).
Proof.
  unfold shorten.
  destruct (Nat.ltb_spec n (String.length t)) as [Hlong|Hshort].
  - rewrite length_append, length_substring_prefix. simpl.
    repeat split; try lia.
  - repeat split; try lia.
Qed.

Lemma keeps_meals_bind {A B : Type} (m : M A) (k : A -> M B) :
  keeps_meals m -> (forall x, keeps_meals (k x)) -> keeps_meals (bind m k).
Proof.
  intros Hm Hk s. unfold bind. specialize (Hm s).
  destruct (m s) as [[x|] s1]; simpl in *; [|assumption].
  now rewrite Hk.
Qed.

Lemma keeps_meals_modify (f : Session -> Session) :
  (forall s, meal_log (f s) = meal_log s) -> keeps_meals (modify f).
Proof. intros H s. apply H. Qed.

Lemma keeps_meals_pure {A : Type} (o : outcome A) : keeps_meals (lift o).
Proof. intros s. reflexivity. Qed.

Lemma streaming_answer_keeps_meals (w : World) :
  keeps_meals (streaming_answer w).
Proof.
  unfold streaming_answer.
  destruct (generate_nutrition_response (generate_stream w));
    [|intros s; reflexivity].
  apply keeps_meals_bind; [apply keeps_meals_pure|]. intros response_text.
  apply keeps_meals_bind; [intros s; reflexivity|]. intros profile.
  apply keeps_meals_bind; [|intros _ s; reflexivity].
  destruct (mentions recipe_keywords response_text).
  - destruct (filter_recipe_for_user_safety _ _ _) as [[? ?] ?].
    now apply keeps_meals_modify.
  - now apply keeps_meals_modify.
Qed.

Lemma plain_answer_keeps_meals (w : World) : keeps_meals (plain_answer w).
Proof.
  unfold plain_answer.
  destruct (generate_nutrition_response (generate_text w));
    [|intros s; reflexivity].
  apply keeps_meals_bind; [apply keeps_meals_pure|]. intros response_text.
  apply keeps_meals_bind; [now apply keeps_meals_modify|].
  intros _ s. reflexivity.
Qed.

Lemma logs_at_most_bind {A B : Type} (P : MealEntry -> Prop) (m : M A)
  (k : A -> M B) (s : Session) :
  meal_log (snd (m s)) = meal_log s ->
  (forall x s1, m s = (Ok x, s1) -> logs_at_most P (k x) s1) ->
  logs_at_most P (bind m k) s.
Proof.
  intros Hm Hk. unfold logs_at_most, bind.
  destruct (m s) as [[x|] s1] eqn:Hrun; cbn [snd] in Hm.
  - destruct (Hk x s1 eq_refl) as [H|(e & He & H)].
    + left. congruence.
    + right. exists e. split; [assumption | congruence].
  - left. exact Hm.
Qed.

Lemma logs_at_most_then {A B : Type} (P : MealEntry -> Prop) (m : M A)
  (k : A -> M B) (s : Session) :
  logs_at_most P m s -> (forall x, keeps_meals (k x)) ->
  logs_at_most P (bind m k) s.
Proof.
  intros Hm Hk. unfold logs_at_most, bind in *.
  destruct (m s) as [[x|] s1]; cbn [snd] in *; [|exact Hm].
  rewrite (Hk x s1). exact Hm.
Qed.

Lemma meal_logging_logs (w : World) (a : Args)
  (function_result : option NutritionEstimate)
  (extracted : NutritionField) (final_response : string) (s : Session) :
  logs_at_most
    (fun e => me_food e = shorten 100 (prompt_to_use a)
              /\ me_time e = clock_text w
              /\ me_ai_advice e = shorten 200 final_response)
    (meal_logging w a function_result extracted final_response) s.
Proof.
  unfold logs_at_most, meal_logging.
  destruct (_ && _); [|now left].
  right. eexists. split; [|reflexivity]. repeat split.
Qed.

Lemma request_body_logs (extract_nutrition_data : string -> Extracted)
  (w : World) (a : Args) (function_result : option NutritionEstimate)
  (s : Session) :
  logs_at_most
    (fun e => exists final_response,
         answer_text w a = Ok final_response
         /\ me_food e = shorten 100 (prompt_to_use a)
         /\ me_time e = clock_text w
         /\ me_ai_advice e = shorten 200 final_response)
    (request_body extract_nutrition_data w a function_result) s.
Proof.
  unfold request_body.
  apply logs_at_most_bind.
  { destruct (uploaded_image_data a); reflexivity. }
  intros _image_data s1 _. apply logs_at_most_bind.
  { destruct (enable_streaming a);
      [apply streaming_answer_keeps_meals | apply plain_answer_keeps_meals]. }
  intros response_text s2 Hanswer.
  assert (Htext : answer_text w a = Ok response_text).
  { rewrite <- (answer_stage_text w a s1), Hanswer. reflexivity. }
  apply logs_at_most_bind.
  { unfold recipe_filtering. destruct (_ && _); reflexivity. }
  intros _ s3 _. apply logs_at_most_bind.
  { destruct function_result; reflexivity. }
  intros _ s4 _. apply logs_at_most_bind; [reflexivity|].
  intros _ s5 _. apply logs_at_most_then.
  - destruct (meal_logging_logs w a function_result
                (if truthy response_text
                 then Dict (extract_nutrition_data response_text)
                 else EmptyDict) response_text s5) as [H|(e & He & H)].
    + now left.
    + right. exists e. split; [exists response_text; tauto | exact H].
  - intros _. apply keeps_meals_bind.
    + intros s6. unfold token_usage.
      destruct (has_response w a); [|reflexivity].
      destruct (usage_metadata w); reflexivity.
    + intros _ s6. destruct (_ && _); reflexivity.
Qed.

(** X24: a request leaves the meal log as it is or adds one entry to it, and
    the texts of that entry are cut: [me_food] is the prompt, or its first 100
    characters and three dots when it has more than 100, so at most 103
    characters; [me_ai_advice] is the text of the answer, or its first 200
    characters and three dots when it has more than 200, so at most 203. *)
Theorem meal_entry_texts_are_cut (extract_nutrition_data : string -> Extracted)
  (w : World) (a : Args) (s : Session) :
  meal_log (snd (process_nutrition_request extract_nutrition_data w a s))
  = meal_log s
  \/ exists e final_response,
       meal_log (snd (process_nutrition_request extract_nutrition_data w a s))
       = meal_log s ++ [e]
       /\ answer_text w a = Ok final_response
       /\ me_food e
          = (if (100 <? String.length (prompt_to_use a))%nat
             then (String.substring 0 100 (prompt_to_use a) ++ "...")%string
             else prompt_to_use a)
       /\ me_ai_advice e
          = (if (200 <? String.length final_response)%nat
             then (String.substring 0 200 final_response ++ "...")%string
             else final_response)
       /\ me_time e = clock_text w
       /\ String.length (me_food e) <= 103
       /\ String.length (me_ai_advice e) <= 203.
Proof.
  unfold process_nutrition_request.
  destruct (check_nutrition_safety (backend w) (prompt_to_use a))
    as [is_safe flagged_terms].
  destruct is_safe; cbn [negb]; [|now left].
  unfold try_except.
  destruct (request_body_logs extract_nutrition_data w a
              (function_calling w a) s)
    as [H|(e & (final_response & Htext & Hfood & Htime & Hadvice) & H)];
    destruct (request_body extract_nutrition_data w a
                           (function_calling w a) s) as [[[]|] s1];
    cbn [snd modify append_chat meal_log] in *.
  - now left.
  - now left.
  - right. exists e, final_response. rewrite Hfood, Hadvice.
    repeat split; try assumption;
      [apply (shorten_bounds 100) | apply (shorten_bounds 200)].
  - right. exists e, final_response. rewrite Hfood, Hadvice.
    repeat split; try assumption;
      [apply (shorten_bounds 100) | apply (shorten_bounds 200)].
Qed.

End MoreHandlerAnswers.

(* ================================================================== *)
(** ** The craving page and the recipe list                            *)
(* ================================================================== *)

Section MorePages.

(** X25: the craving page shows the four default tags when no group of
    craving words occurs in the text, the three tags of the group when exactly
    one occurs, and the first four of the collected tags when several occur:
    the three tags of the first matching group and the first tag of the
    second.  So it shows three tags or four, each one of the seventeen of the
    tables. *)
Theorem color_tags_are_three_or_four (craving_text : string) :
  (craving_groups craving_text = [] ->
   get_color_nutrition_tags craving_text = default_tags)
  /\ (forall tags,
         craving_groups craving_text = [tags] ->
         get_color_nutrition_tags craving_text = tags
         /\ List.length tags = 3)
  /\ (forall tags more others,
         craving_groups craving_text = tags :: more :: others ->
         get_color_nutrition_tags craving_text
         = firstn 4 (concat (craving_groups craving_text))
         /\ get_color_nutrition_tags craving_text = tags ++ firstn 1 more
         /\ List.length (get_color_nutrition_tags craving_text) = 4)
  /\ (List.length (get_color_nutrition_tags craving_text) = 3
      <-> List.length (craving_groups craving_text) = 1)
  /\ (List.length (get_color_nutrition_tags craving_text) = 3
      \/ List.length (get_color_nutrition_tags craving_text) = 4)
  /\ incl (get_color_nutrition_tags craving_text)
          (sweet_tags ++ salty_tags ++ energy_tags ++ inflammation_tags
             ++ default_tags).
Proof.
  unfold get_color_nutrition_tags, craving_groups, craving_words.
  cbv zeta. cbn [filter map fst snd].
  destruct (any _ ["sweet"; "sugar"; "dessert"; "candy"]);
    destruct (any _ ["fries"; "chips"; "salty"; "crispy"]);
    destruct (any _ ["tired"; "energy"; "fatigue"]);
    destruct (any _ ["anti-inflammatory"; "inflammation"; "joint"]);
    cbn [filter map fst snd];
    (split; [intros H; first [discriminate H | reflexivity]|]);
    (split; [intros tags H; first [discriminate H
                                  | injection H as <-; split; reflexivity]|]);
    (split; [intros tags more others H;
             first [discriminate H
                   | injection H as <- <- _; repeat split; reflexivity]|]);
    (split; [split; intros H; first [discriminate H | reflexivity]|]);
    (split; [vm_compute; auto|]);
    intros tag Htag; vm_compute in Htag; vm_compute; tauto.
Qed.

Lemma slice_prefix_firstn {A : Type} (l : list A) (k : nat) :
  slice l 0 (Z.of_nat k) = firstn k l.
Proof.
  unfold slice, clamp_index. change (0 <? 0)%Z with false. cbv iota.
  destruct (Z.ltb_spec (Z.of_nat k) 0); [lia|].
  rewrite (Z.min_l 0) by lia. simpl skipn.
  destruct (Nat.le_gt_cases k (List.length l)).
  - f_equal. lia.
  - rewrite !firstn_all2 by lia. reflexivity.
Qed.

(** X26: saving a recipe puts it in front of the list and keeps the newest
    ten: the list never holds more than ten recipes, and the number returned
    is its length. *)
Theorem recipe_list_keeps_newest_ten
  (user_recipe_list : option (list RecipeEntry)) (profile : UserProfile)
  (now recipe_content recipe_title : string)
  (nutrition_data : option NutritionEstimate) :
  fst (save_user_recipe_list user_recipe_list profile now recipe_content
                             recipe_title nutrition_data)
  = firstn 10
      (mkRecipeEntry recipe_title recipe_content now (allergies profile)
                     (unpreferred_foods profile) nutrition_data
         :: match user_recipe_list with Some l => l | None => [] end)
  /\ snd (save_user_recipe_list user_recipe_list profile now recipe_content
                                recipe_title nutrition_data)
     = List.length
         (fst (save_user_recipe_list user_recipe_list profile now
                                     recipe_content recipe_title
                                     nutrition_data))
  /\ 1 <= snd (save_user_recipe_list user_recipe_list profile now
                                     recipe_content recipe_title
                                     nutrition_data) <= 10.
Proof.
  unfold save_user_recipe_list. cbv zeta. cbn [fst snd].
  set (recipes := _ :: _).
  assert (Hfirst : (if (10 <? List.length recipes)%nat
                    then slice recipes 0 10 else recipes)
                   = firstn 10 recipes).
  { destruct (Nat.ltb_spec 10 (List.length recipes)).
    - apply (slice_prefix_firstn recipes 10).
    - now rewrite firstn_all2. }
  rewrite Hfirst. split; [reflexivity|]. split; [reflexivity|].
  rewrite length_firstn. subst recipes. simpl List.length. lia.
Qed.

End MorePages.

(* ================================================================== *)
(** ** The profile form                                                *)
(* ================================================================== *)

Section ProfileForms.

Lemma split_on_plain (x : string) :
  no_comma x = true -> split_on "," x = [x].
Proof.
  induction x as [|c x IH]; simpl; [reflexivity|].
  intros H. apply andb_true_iff in H as [Hc Hx].
  apply negb_true_iff in Hc. rewrite Hc, IH by assumption. reflexivity.
Qed.

Lemma split_on_first (x r : string) :
  no_comma x = true ->
  split_on "," (x ++ String "," r) = x :: split_on "," r.
Proof.
  induction x as [|c x IH]; simpl; [reflexivity|].
  intros H. apply andb_true_iff in H as [Hc Hx].
  apply negb_true_iff in Hc. rewrite Hc, IH by assumption. reflexivity.
Qed.

Lemma split_on_join (x : string) (xs : list string) :
  Forall (fun y => no_comma y = true) (x :: xs) ->
  split_on "," (join ", " (x :: xs))
  = x :: map (fun y => String " " y) xs.
Proof.
  revert x. induction xs as [|y ys IH]; intros x Hall.
  - inversion Hall; subst. now apply split_on_plain.
  - inversion Hall as [|? ? Hx Hrest]; subst.
    change (join ", " (x :: y :: ys))
      with (x ++ String "," (String " " (join ", " (y :: ys))))%string.
    rewrite split_on_first by assumption. f_equal.
    cbn [split_on]. change (Ascii.eqb " " ",") with false. cbv iota.
    rewrite IH by assumption. reflexivity.
Qed.

Lemma strip_leading_blank (y : string) : strip (String " " y) = strip y.
Proof. reflexivity. Qed.

(** X27: the allergies selected in the profile reach the recipe filter one by
    one: when no selected allergy is empty or contains a comma, the filter
    reads the stored text back as the selected allergies, trimmed and in lower
    case. *)
Theorem selected_allergies_reach_the_filter
  (selected_allergies : list string) :
  Forall (fun item => truthy item = true /\ no_comma item = true)
         selected_allergies ->
  parse_allergies (profile_allergies selected_allergies)
  = map (fun item => lower (strip item)) selected_allergies.
Proof.
  intros Hall. destruct selected_allergies as [|x xs]; [reflexivity|].
  unfold profile_allergies, parse_allergies.
  assert (Hcomma : Forall (fun y => no_comma y = true) (x :: xs))
    by (eapply Forall_impl; [|exact Hall]; now intros y [_ H]).
  assert (Htruthy : truthy (join ", " (x :: xs)) = true).
  { inversion Hall as [|? ? [Hx _] _]; subst.
    destruct xs; [exact Hx|].
    change (join ", " (x :: s :: xs))
      with (x ++ (", " ++ join ", " (s :: xs)))%string.
    now apply truthy_app_l. }
  rewrite Htruthy, split_on_join by assumption.
  cbn [map]. f_equal. rewrite map_map. apply map_ext.
  intros y. now rewrite strip_leading_blank.
Qed.

Lemma selected_allergies_reach_the_filter_witness :
  parse_allergies (profile_allergies ["Peanuts"; "Tree nuts"; "Soy"])
  = ["peanuts"; "tree nuts"; "soy"].
Proof.
  apply (selected_allergies_reach_the_filter
           ["Peanuts"; "Tree nuts"; "Soy"]).
  repeat constructor.
Defined.

Lemma rstrip_cons (c : ascii) (r : string) :
  rstrip (String c r)
  = match rstrip r with
    | EmptyString => if is_space c then EmptyString else String c EmptyString
    | String _ _ as t => String c t
    end.
Proof. reflexivity. Qed.

Lemma rstrip_idem (s : string) : rstrip (rstrip s) = rstrip s.
Proof.
  induction s as [|c r IH]; [reflexivity|]. rewrite rstrip_cons.
  destruct (rstrip r) as [|d t] eqn:E.
  - destruct (is_space c) eqn:Hc; [reflexivity|].
    rewrite rstrip_cons. cbn [rstrip]. now rewrite Hc.
  - rewrite rstrip_cons, IH. reflexivity.
Qed.

Lemma lstrip_rstrip_head (s : string) :
  lstrip (rstrip (lstrip s)) = rstrip (lstrip s).
Proof.
  assert (Hhead : forall t, lstrip (lstrip t) = lstrip t).
  { induction t as [|c r IH]; [reflexivity|]. simpl.
    destruct (is_space c) eqn:Hc; [exact IH|]. simpl. now rewrite Hc. }
  assert (Hshape : forall t,
             lstrip t = t -> lstrip (rstrip t) = rstrip t).
  { intros [|c r] Ht; [reflexivity|]. simpl in Ht.
    destruct (is_space c) eqn:Hc.
    - exfalso. assert (Hlen : String.length (lstrip r) <= String.length r).
      { clear. induction r as [|d r IH]; simpl; [lia|].
        destruct (is_space d); simpl; lia. }
      rewrite Ht in Hlen. simpl in Hlen. lia.
    - rewrite rstrip_cons. destruct (rstrip r); rewrite ?Hc; cbn [lstrip];
        now rewrite Hc. }
  apply Hshape, Hhead.
Qed.

Lemma strip_idem (s : string) : strip (strip s) = strip s.
Proof.
  unfold strip. now rewrite lstrip_rstrip_head, rstrip_idem.
Qed.

(** X28: the foods to avoid stored by the profile are never blank: every entry
    is a trimmed, non-empty part of the input, so, unlike an empty allergy, no
    entry can match every recipe by being empty. *)
Theorem unpreferred_entries_are_never_blank (unpreferred_input : string) :
  Forall (fun item =>
            truthy item = true
            /\ strip item = item
            /\ truthy (lower (strip item)) = true
            /\ exists part, In part (split_on "," unpreferred_input)
                            /\ item = strip part)
         (profile_unpreferred_foods unpreferred_input).
Proof.
  unfold profile_unpreferred_foods.
  destruct (truthy (strip unpreferred_input)); [|constructor].
  apply Forall_forall. intros item Hitem.
  apply in_map_iff in Hitem as (part & <- & Hpart).
  apply filter_In in Hpart as [Hin Htruthy].
  rewrite strip_idem. repeat split; try assumption.
  - destruct (strip part); [discriminate | reflexivity].
  - now exists part.
Qed.

End ProfileForms.
